(** * QUBO examples: the [solve_qubo] helper of [Examples.ipynb]

    The notebook's one routine, [solve_qubo], validates its arguments, builds
    a sampler (dimod's simulated annealer, or D-Wave's hardware sampler behind
    an auto-embedding composite), submits the matrix, and reduces the returned
    sample set to its entry of least energy.

    The samplers are external: they are fields of a [world], one function per
    capability, so that a statement holds for whatever the samplers answer,
    unless it names a property of their answers as a hypothesis.  What
    [solve_qubo] does to the outside (printing, constructing sampler objects,
    calling them) is recorded as a trace of [event]s. *)

From Stdlib Require Import ZArith QArith Qpower List String Bool Lia.
From Stdlib Require Import PrimFloat FloatOps SpecFloat FloatAxioms Uint63.
From Stdlib Require Import Permutation.
Import ListNotations.
Open Scope string_scope.
Open Scope list_scope.
Open Scope Z_scope.

(** ** Python values, exceptions and the effect monad *)

(** The values a caller passes for [sampler], [k] and [chain_strength]. *)
#[warnings="-register-all"]
Inductive pyval : Type :=
| PyNone
| PyBool (b : bool)
| PyInt (z : Z)
| PyFloat (f : float)
| PyStr (s : string)
| PyList (l : list pyval).

Inductive exn : Type :=
| AssertionError
| IndexError
| ValueError
| OverflowError
| ExternalError (msg : string).

Inductive outcome (A : Type) : Type :=
| Returned (a : A)
| Raised (e : exn).
Arguments Returned {A} a.
Arguments Raised {A} e.

(** ** numpy arrays

    Two element types are modelled: [int64] (the notebook builds its matrix
    with [dtype=int]) and [float64] (numpy's default).  The buffer is the
    array in row-major order. *)

Module Numpy.

Inductive buffer : Type :=
| Int64 (l : list Z)
| Float64 (l : list float).

Record ndarray : Type := mk_ndarray { shape : list nat; buf : buffer }.

(** A numpy scalar, as [np.max] returns it. *)
Inductive scalar : Type :=
| I64 (z : Z)
| F64 (f : float).

Definition wrap64 (z : Z) : Z := (z + 2 ^ 63) mod 2 ^ 64 - 2 ^ 63.

Definition int64_rangeb (z : Z) : bool := (- 2 ^ 63 <=? z) && (z <? 2 ^ 63).

Definition buf_length (b : buffer) : nat :=
  match b with
  | Int64 l => List.length l
  | Float64 l => List.length l
  end.

Definition size (a : ndarray) : nat := fold_right Nat.mul 1%nat (shape a).

(** Well-formed arrays: as many elements as the shape says, and every
    [int64] element in range. *)
Definition wf (a : ndarray) : bool :=
  Nat.eqb (buf_length (buf a)) (size a) &&
  match buf a with
  | Int64 l => forallb int64_rangeb l
  | Float64 _ => true
  end.

(** [Q.shape[0]]: an [IndexError] on a 0-dimensional array. *)
Definition shape0 (a : ndarray) : outcome Z :=
  match shape a with
  | [] => Raised IndexError
  | n :: _ => Returned (Z.of_nat n)
  end.

(** [len(Q[Q != 0])]: the number of entries different from zero, over the
    whole array.  A NaN is different from zero. *)
Definition count_nonzero (a : ndarray) : Z :=
  match buf a with
  | Int64 l => Z.of_nat (List.length (filter (fun z => negb (z =? 0)) l))
  | Float64 l =>
      Z.of_nat (List.length (filter (fun f => negb (f =? 0)%float) l))
  end.

(** [np.abs(Q)]: elementwise; on [int64] the absolute value of the least
    integer wraps to itself. *)
Definition abs (a : ndarray) : ndarray :=
  {| shape := shape a;
     buf := match buf a with
            | Int64 l => Int64 (map (fun z => wrap64 (Z.abs z)) l)
            | Float64 l => Float64 (map PrimFloat.abs l)
            end |}.

(** The maximum of two floats as [np.max] takes it: a NaN wins. *)
Definition fmax (a b : float) : float :=
  if is_nan a then a
  else if is_nan b then b
  else if (a <? b)%float then b else a.

(** [np.max(Q)]: over all the entries; a [ValueError] on an empty array. *)
Definition max (a : ndarray) : outcome scalar :=
  match buf a with
  | Int64 [] => Raised ValueError
  | Int64 (z :: l) => Returned (I64 (fold_left Z.max l z))
  | Float64 [] => Raised ValueError
  | Float64 (f :: l) => Returned (F64 (fold_left fmax l f))
  end.

(** [10 * s] for a numpy scalar [s]: [int64] wraps around, [float64]
    rounds. *)
Definition times10 (s : scalar) : scalar :=
  match s with
  | I64 z => I64 (wrap64 (10 * z))
  | F64 f => F64 (10 * f)%float
  end.

(** The integer part of a float, toward zero. *)
Definition trunc_float (f : float) : outcome Z :=
  match Prim2SF f with
  | S754_zero _ => Returned 0
  | S754_infinity _ => Raised OverflowError
  | S754_nan => Raised ValueError
  | S754_finite s m e =>
      let v := if 0 <=? e then Z.pos m * 2 ^ e else Z.pos m / 2 ^ (- e) in
      Returned (if s then - v else v)
  end.

(** Python's [int(s)] on a numpy scalar. *)
Definition to_int (s : scalar) : outcome Z :=
  match s with
  | I64 z => Returned z
  | F64 f => trunc_float f
  end.

(** The entry at row [i], column [j] of a two-dimensional array with [n]
    columns, as a numpy scalar. *)
Definition entry (a : ndarray) (n i j : nat) : scalar :=
  match buf a with
  | Int64 l => I64 (nth (i * n + j) l 0)
  | Float64 l => F64 (nth (i * n + j) l 0%float)
  end.

(** A square matrix: two dimensions of the same length. *)
Definition square (a : ndarray) : Prop := exists n, shape a = [n; n].

Definition squareb (a : ndarray) : bool :=
  match shape a with
  | [n; m] => Nat.eqb n m
  | _ => false
  end.

(** The exact value of a finite scalar, as a rational. *)
Definition value (s : scalar) : Q :=
  match s with
  | I64 z => inject_Z z
  | F64 f =>
      match Prim2SF f with
      | S754_finite sg m e =>
          (inject_Z (if sg then Z.neg m else Z.pos m) * Qpower 2 e)%Q
      | _ => 0%Q
      end
  end.

Definition finite_float (f : float) : bool :=
  match Prim2SF f with
  | S754_infinity _ | S754_nan => false
  | _ => true
  end.

End Numpy.

Import Numpy.

(** ** dimod sample sets *)

(** One row of [response.data(["sample", "energy"])]: the sample gives the
    value of variable [i] at position [i]; the energy is a finite float, which
    [solve_qubo] only compares, taken here as the rational it denotes. *)
Record Sample : Type := mk_Sample { sample : list Z; energy : Q }.

(** A sample set, by the sequence of rows that
    [response.data(["sample", "energy"])] yields, in that order. *)
Record SampleSet : Type := mk_SampleSet { data : list Sample }.

(** ** The outside world *)

(** The external collaborators of one call.  A field gives what the
    collaborator answers; it is arbitrary, which covers the randomness of the
    annealers and the failures of the remote service. *)
Record world : Type := mk_world {
  (** the successive readings of [time.time()] *)
  clock : nat -> float;
  (** [dimod.SimulatedAnnealingSampler().sample_qubo(Q, num_reads=k)] *)
  sa_sample_qubo : ndarray -> pyval -> outcome SampleSet;
  (** [DWaveSampler(solver=dict(qpu=True))]: the error it raises, if any *)
  dwave_connect : option exn;
  (** [AutoEmbeddingComposite(...).sample_qubo(Q, num_reads=k,
      chain_strength=c)] *)
  qpu_sample_qubo : ndarray -> pyval -> pyval -> outcome SampleSet
}.

Inductive event : Type :=
| Print (format : string) (args : list pyval)
| New_SimulatedAnnealingSampler
| New_DWaveSampler
| New_AutoEmbeddingComposite
| Call_sample_qubo (Qm : ndarray) (num_reads : pyval)
| Call_sample_qubo_chain (Qm : ndarray) (num_reads chain_strength : pyval).

(** A computation: its outcome and the events it emitted, oldest first. *)
Definition M (A : Type) : Type := (outcome A * list event)%type.

Definition ret {A} (a : A) : M A := (Returned a, []).

Definition raise {A} (e : exn) : M A := (Raised e, []).

Definition bind {A B} (m : M A) (f : A -> M B) : M B :=
  match m with
  | (Raised e, t) => (Raised e, t)
  | (Returned a, t) => let (o, t') := f a in (o, t ++ t')
  end.

Definition emit (e : event) : M unit := (Returned tt, [e]).

Definition lift {A} (o : outcome A) : M A := (o, []).

Notation "x <- m ;; f" := (bind m (fun x => f))
  (at level 61, m at next level, right associativity).
Notation "m ;;; f" := (bind m (fun _ => f))
  (at level 61, right associativity).

Definition result {A} (m : M A) : outcome A := fst m.
Definition trace {A} (m : M A) : list event := snd m.

(** ** Python built-ins *)

(** [v == s] for a string literal [s]. *)
Definition py_eq_str (v : pyval) (s : string) : bool :=
  match v with
  | PyStr t => String.eqb t s
  | _ => false
  end.

(** [v in l] for a list [l] of string literals. *)
Definition py_in (v : pyval) (l : list string) : bool :=
  existsb (py_eq_str v) l.

Definition py_assert (b : bool) : M unit :=
  if b then ret tt else raise AssertionError.

(** [x < y] on energies. *)
Definition Qltb (x y : Q) : bool := negb (Qle_bool y x).

(** The loop of [min(iterable, key=key)]: a later item replaces the best one
    only when its key is strictly less. *)
Fixpoint min_from {A} (key : A -> Q) (best : A) (l : list A) : A :=
  match l with
  | [] => best
  | x :: t => min_from key (if Qltb (key x) (key best) then x else best) t
  end.

(** [min(l, key=key)]: a [ValueError] on an empty sequence. *)
Definition py_min {A} (key : A -> Q) (l : list A) : outcome A :=
  match l with
  | [] => Raised ValueError
  | x :: t => Returned (min_from key x t)
  end.

(** ** The notebook's function *)

(** An argument given for [Q]: a numpy array, or any other value. *)
Inductive pyobj : Type :=
| Ndarray (a : ndarray)
| Other (v : pyval).

(** [assert isinstance(Q, np.ndarray)] *)
Definition assert_ndarray (Qo : pyobj) : M ndarray :=
  match Qo with
  | Ndarray a => ret a
  | Other _ => raise AssertionError
  end.

(** The chain strength handed to the hardware sampler:
    [int(10 * np.max(np.abs(Q)))] when the argument is [None]. *)
Definition default_chain_strength (Qm : ndarray) : outcome Z :=
  match Numpy.max (Numpy.abs Qm) with
  | Raised e => Raised e
  | Returned m => to_int (times10 m)
  end.

Definition resolve_chain_strength (Qm : ndarray) (chain_strength : pyval)
  : M pyval :=
  match chain_strength with
  | PyNone => c <- lift (default_chain_strength Qm) ;; ret (PyInt c)
  | v => ret v
  end.

(** [DWaveSampler(solver=dict(qpu=True))] *)
Definition new_DWaveSampler (w : world) : M unit :=
  emit New_DWaveSampler ;;;
  match dwave_connect w with
  | Some e => raise e
  | None => ret tt
  end.

Definition solve_qubo (w : world) (Qo : pyobj)
    (sampler k chain_strength : pyval) : M (Sample * SampleSet) :=
  Qm <- assert_ndarray Qo ;;
  py_assert (py_in sampler ["CPU"; "QPU"]) ;;;
  n <- lift (shape0 Qm) ;;
  let nz := count_nonzero Qm in
  emit (Print "Solving QUBO problem (%d vars, %d nz) on %s..."
              [PyInt n; PyInt nz; sampler]) ;;;
  let start := clock w 0 in
  response <-
    (if py_eq_str sampler "CPU" then
       emit New_SimulatedAnnealingSampler ;;;
       emit (Call_sample_qubo Qm k) ;;;
       lift (sa_sample_qubo w Qm k)
     else
       c <- resolve_chain_strength Qm chain_strength ;;
       new_DWaveSampler w ;;;
       emit New_AutoEmbeddingComposite ;;;
       emit (Call_sample_qubo_chain Qm k c) ;;;
       lift (qpu_sample_qubo w Qm k c)) ;;
  let elapsed := (clock w 1 - start)%float in
  emit (Print "Solved in %.2f seconds" [PyFloat elapsed]) ;;;
  solution <- lift (py_min energy (data response)) ;;
  ret (solution, response).

(** The defaults of the signature: [sampler="CPU"], [k=10],
    [chain_strength=None]. *)
Definition solve_qubo_defaults (w : world) (Qo : pyobj)
  : M (Sample * SampleSet) :=
  solve_qubo w Qo (PyStr "CPU") (PyInt 10) PyNone.

(** The block of [solve_qubo] that builds the sampler and calls it (the
    [if sampler == "CPU": ... else: ...] of the source), on its own: the
    theorems below name its outcome. *)
Definition sampler_call (w : world) (Qm : ndarray)
    (sampler k chain_strength : pyval) : M SampleSet :=
  if py_eq_str sampler "CPU" then
    emit New_SimulatedAnnealingSampler ;;;
    emit (Call_sample_qubo Qm k) ;;;
    lift (sa_sample_qubo w Qm k)
  else
    c <- resolve_chain_strength Qm chain_strength ;;
    new_DWaveSampler w ;;;
    emit New_AutoEmbeddingComposite ;;;
    emit (Call_sample_qubo_chain Qm k c) ;;;
    lift (qpu_sample_qubo w Qm k c).

(** The two lines [solve_qubo] prints. *)
Definition print_solving (Qm : ndarray) (n : Z) (sampler : pyval) : event :=
  Print "Solving QUBO problem (%d vars, %d nz) on %s..."
        [PyInt n; PyInt (count_nonzero Qm); sampler].

Definition print_solved (w : world) : event :=
  Print "Solved in %.2f seconds" [PyFloat (clock w 1 - clock w 0)%float].

(** What follows the sampler's answer: the second line and the reduction. *)
Definition reduce (w : world) (r : SampleSet) : M (Sample * SampleSet) :=
  emit (print_solved w) ;;;
  solution <- lift (py_min energy (data r)) ;;
  ret (solution, r).

Definition is_chain_call (e : event) : bool :=
  match e with
  | Call_sample_qubo_chain _ _ _ => true
  | _ => false
  end.

(** The run hands [c] to the hardware sampler as its chain strength: the
    events up to the call are the first line, the two constructions and the
    call with [c]. *)
Definition passes_chain_strength (w : world) (Qm : ndarray)
    (k cs c : pyval) : Prop :=
  exists t,
    trace (solve_qubo w (Ndarray Qm) (PyStr "QPU") k cs)
    = print_solving Qm (Z.of_nat (hd 0%nat (shape Qm))) (PyStr "QPU")
      :: New_DWaveSampler :: New_AutoEmbeddingComposite
      :: Call_sample_qubo_chain Qm k c :: t.

(** ** Notions the properties are stated with *)

(** [m] is a first minimum of [l] for [key]: what precedes it is strictly
    above, what follows is not below. *)
Definition first_minimum {A} (key : A -> Q) (m : A) (l : list A) : Prop :=
  exists pre post,
    l = pre ++ m :: post /\
    (forall y, In y pre -> (key m < key y)%Q) /\
    (forall y, In y post -> (key m <= key y)%Q).

(** [m] is the least element of [l]. *)
Definition minimum_of (m : Q) (l : list Q) : Prop :=
  In m l /\ forall y, In y l -> (m <= y)%Q.

(** The greatest absolute value of a list of integers. *)
Definition max_abs (l : list Z) : Z := fold_right Z.max 0 (map Z.abs l).

(** The integer part of a rational, toward zero. *)
Definition Qtrunc (q : Q) : Z := Z.quot (Qnum q) (Z.pos (Qden q)).

(** Python's [v == s] between a number and a numpy scalar; an integer equals
    a float when the float is that integer exactly. *)
Definition py_eq_scalar (v : pyval) (s : scalar) : bool :=
  match v, s with
  | PyInt z, I64 z' => z =? z'
  | PyInt z, F64 f => finite_float f && Qeq_bool (inject_Z z) (value (F64 f))
  | PyFloat g, F64 f => (g =? f)%float
  | PyFloat g, I64 z => finite_float g && Qeq_bool (value (F64 g)) (inject_Z z)
  | _, _ => false
  end.


Definition is_zero (s : scalar) : Prop := s = I64 0 \/ s = F64 0%float.

(** A square matrix with zero everywhere below the diagonal. *)
Definition upper_triangular (a : ndarray) : Prop :=
  exists n, shape a = [n; n] /\
            forall i j, (j < i < n)%nat -> is_zero (entry a n i j).

(** [s == 0] as numpy compares: either zero of [float64] is equal to 0, a
    NaN is not. *)
Definition zero_scalar (s : scalar) : bool :=
  match s with
  | I64 z => z =? 0
  | F64 f => (f =? 0)%float
  end.

(** A square matrix whose entries below the diagonal all compare equal
    to 0. *)
Definition zero_below_diagonal (a : ndarray) : Prop :=
  exists n, shape a = [n; n] /\
            forall i j, (j < i < n)%nat -> zero_scalar (entry a n i j) = true.

(** ** The samplers' contract

    The samplers (dimod's [SimulatedAnnealingSampler], and D-Wave's
    [DWaveSampler] behind [AutoEmbeddingComposite]) are imported by the
    notebook; their code is not part of it.  What is said of their answers
    is stated here, of an ensemble or over a [world]; a theorem that needs it
    takes it as a hypothesis. *)

(** [x[i]], as a rational. *)
Definition x_at (x : list Z) (i : nat) : Q := inject_Z (nth i x 0).

Definition Qsum (l : list Q) : Q := fold_right Qplus 0%Q l.

(** Modelled from the spec: the objective the samplers, which are not in the
    notebook, evaluate, [sum_{i<=j} x_i * Q[i,j] * x_j], diagonal included:
    [sum(x[i] * Q[i,j] * x[j] for i in range(N) for j in range(i, N))]. *)
Definition qubo_objective (Qm : ndarray) (x : list Z) : Q :=
  let N := hd 0%nat (shape Qm) in
  Qsum (map (fun i =>
          Qsum (map (fun j => (x_at x i * value (entry Qm N i j) * x_at x j)%Q)
                    (seq i (N - i))))
        (seq 0 N)).

(** The sum as the docstring of [solve_qubo] writes it, from [i + 1]:
    [sum(x[i] * Q[i,j] * x[j] for i in range(N) for j in range(i+1, N))]. *)
Definition docstring_objective (Qm : ndarray) (x : list Z) : Q :=
  let N := hd 0%nat (shape Qm) in
  Qsum (map (fun i =>
          Qsum (map (fun j => (x_at x i * value (entry Qm N i j) * x_at x j)%Q)
                    (seq (i + 1) (N - (i + 1)))))
        (seq 0 N)).

(** Modelled from the spec: the samplers' [sample_qubo] is not in the
    notebook; of an ensemble the specification says that the energy of an
    entry is the QUBO objective value for its sample. *)
Definition energies_are_objective (Qm : ndarray) (r : SampleSet) : Prop :=
  Forall (fun e => (energy e == qubo_objective Qm (sample e))%Q) (data r).

(** What a sampler does with the entries below the diagonal is not in the
    notebook either.  A sampler that takes every entry of the array it is
    handed as a coefficient evaluates the sum over every entry,
    [sum(x[i] * Q[i,j] * x[j] for i in range(N) for j in range(N))]: the
    entry below the diagonal adds to the coupling of its pair. *)
Definition whole_matrix_sum (Qm : ndarray) (x : list Z) : Q :=
  let N := hd 0%nat (shape Qm) in
  Qsum (map (fun i =>
          Qsum (map (fun j => (x_at x i * value (entry Qm N i j) * x_at x j)%Q)
                    (seq 0 N)))
        (seq 0 N)).

(** Of an ensemble: the energy of an entry is that sum at its sample. *)
Definition energies_are_whole_matrix_sum (Qm : ndarray) (r : SampleSet)
  : Prop :=
  Forall (fun e => (energy e == whole_matrix_sum Qm (sample e))%Q) (data r).

(** Modelled from the spec: the local sampler's [sample_qubo] is not in the
    notebook; the specification says that its ensemble has one sample per
    requested repeat. *)
Definition sa_num_reads_contract (w : world) : Prop :=
  forall Qm k r, 1 <= k -> sa_sample_qubo w Qm (PyInt k) = Returned r ->
                 Z.of_nat (List.length (data r)) = k.

(** ** A deterministic stand-in for the samplers

    Read [j] (from 0) gives variable [i] the [i]-th binary digit of [j]; the
    energy is the objective there.  A matrix that is not square, or a number
    of reads that is not a positive integer, is refused. *)

Definition digits (N j : nat) : list Z :=
  map (fun i => if Nat.testbit j i then 1 else 0) (seq 0 N).

Definition stub_rows (Qm : ndarray) (k : nat) : list Sample :=
  map (fun j => let x := digits (hd 0%nat (shape Qm)) j in
                {| sample := x; energy := qubo_objective Qm x |})
      (seq 0 k).

Definition stub_sample_qubo (Qm : ndarray) (num_reads : pyval)
  : outcome SampleSet :=
  if squareb Qm then
    match num_reads with
    | PyInt k => if 1 <=? k
                 then Returned {| data := stub_rows Qm (Z.to_nat k) |}
                 else Raised ValueError
    | _ => Raised ValueError
    end
  else Raised ValueError.

Definition stub_world : world :=
  {| clock := fun i => if Nat.eqb i 0 then 100%float else 100.5%float;
     sa_sample_qubo := stub_sample_qubo;
     dwave_connect := None;
     qpu_sample_qubo := fun Qm k _ => stub_sample_qubo Qm k |}.

(** A 2 x 2 instance, [x0 + x1 - 4 x0 x1], least at [x = (1, 1)]. *)
Definition Q_small : ndarray :=
  {| shape := [2%nat; 2%nat]; buf := Int64 [1; -4; 0; 1] |}.

(** ** Instances used to evaluate the statements *)

(** The sample set the stand-in answers for [Q_small] and four reads. *)
Definition r_small : SampleSet := {| data := stub_rows Q_small 4 |}.

(** An ensemble with a tie: the least energy, -2, at positions 1 and 3. *)
Definition r_tie : SampleSet :=
  {| data := [ {| sample := [0; 0]; energy := 0 |};
               {| sample := [1; 1]; energy := -2 |};
               {| sample := [1; 0]; energy := 1 |};
               {| sample := [0; 1]; energy := (-4 # 2) |} ] |}.

Definition tie_world : world :=
  {| clock := clock stub_world;
     sa_sample_qubo := fun _ _ => Returned r_tie;
     dwave_connect := None;
     qpu_sample_qubo := fun _ _ _ => Returned r_tie |}.

Definition Q_2x3 : ndarray :=
  {| shape := [2%nat; 3%nat]; buf := Int64 [1; 2; 3; 4; 5; 6] |}.

(** The 1 x 1 matrix [[0.25]]. *)
Definition Q_quarter : ndarray :=
  {| shape := [1%nat; 1%nat]; buf := Float64 [0.25%float] |}.

(** [Q_small] with a 7 below the diagonal. *)
Definition Q_below : ndarray :=
  {| shape := [2%nat; 2%nat]; buf := Int64 [1; -4; 7; 1] |}.

(** [Q_small] with a -7 below the diagonal. *)
Definition Q_lower : ndarray :=
  {| shape := [2%nat; 2%nat]; buf := Int64 [1; -4; -7; 1] |}.

(** A second stand-in for the samplers, which reads the whole matrix: the
    reads are those of the first, the energy of a read is the sum over every
    entry. *)
Definition dense_rows (Qm : ndarray) (k : nat) : list Sample :=
  map (fun j => let x := digits (hd 0%nat (shape Qm)) j in
                {| sample := x; energy := whole_matrix_sum Qm x |})
      (seq 0 k).

Definition dense_sample_qubo (Qm : ndarray) (num_reads : pyval)
  : outcome SampleSet :=
  if squareb Qm then
    match num_reads with
    | PyInt k => if 1 <=? k
                 then Returned {| data := dense_rows Qm (Z.to_nat k) |}
                 else Raised ValueError
    | _ => Raised ValueError
    end
  else Raised ValueError.

Definition dense_world : world :=
  {| clock := clock stub_world;
     sa_sample_qubo := dense_sample_qubo;
     dwave_connect := None;
     qpu_sample_qubo := fun Qm k _ => dense_sample_qubo Qm k |}.

(** ** The number partitioning cells

    Section 2 of the notebook: the cell that builds the matrix of a number
    partitioning instance from the numbers [S] (an [int64] array), and the
    cells that solve it and display the two sides. *)

(** The builtin [sum] over [int64] numbers: each addition wraps around. *)
Definition py_sum (l : list Z) : Z :=
  fold_left (fun acc s => wrap64 (acc + s)) l 0.

(** [S[i]] on a one-dimensional array, [i >= 0]. *)
Definition getitem (S : list Z) (i : nat) : outcome Z :=
  match nth_error S i with
  | Some s => Returned s
  | None => Raised IndexError
  end.

(** The list [l] with [v] at position [p]; [p] is within the list where this
    is used. *)
Fixpoint update {A} (l : list A) (p : nat) (v : A) : list A :=
  match l, p with
  | [], _ => []
  | _ :: t, O => v :: t
  | x :: t, S p' => x :: update t p' v
  end.

(** The float an [int64] converts to when stored in a [float64] array. *)
Definition float_of_int64 (z : Z) : float :=
  if z =? - 2 ^ 63 then (-0x1p63)%float
  else if z <? 0 then (- PrimFloat.of_uint63 (Uint63.of_Z (- z)))%float
  else PrimFloat.of_uint63 (Uint63.of_Z z).

(** [Q[i,j] = v] for an [int64] value, [i, j >= 0]: on a two-dimensional
    array, an [IndexError] outside its bounds; an array of one dimension or
    none has too many indices. *)
Definition setitem (a : ndarray) (i j : nat) (v : Z) : outcome ndarray :=
  match shape a with
  | [r; c] =>
      if (i <? r)%nat && (j <? c)%nat then
        Returned {| shape := [r; c];
                    buf := match buf a with
                           | Int64 l => Int64 (update l (i * c + j) v)
                           | Float64 l =>
                               Float64 (update l (i * c + j) (float_of_int64 v))
                           end |}
      else Raised IndexError
  | _ => Raised IndexError
  end.

(** [np.zeros((n, m), dtype=int)] *)
Definition zeros (n m : nat) : ndarray :=
  {| shape := [n; m]; buf := Int64 (repeat 0 (n * m)) |}.

(** [for i in range(lo, hi): state = body(i, state)], stopping at the first
    exception. *)
Fixpoint for_each {A} (l : list nat) (body : nat -> A -> outcome A) (a : A)
  : outcome A :=
  match l with
  | [] => Returned a
  | i :: t =>
      match body i a with
      | Returned a' => for_each t body a'
      | Raised e => Raised e
      end
  end.

Definition range (lo hi : nat) : list nat := seq lo (hi - lo).

Definition obind {A B} (o : outcome A) (f : A -> outcome B) : outcome B :=
  match o with
  | Returned a => f a
  | Raised e => Raised e
  end.

(** The cell "Create random instance and Q matrix", from [S] on:
    [c, n = sum(S), len(S)], [Q = np.zeros((n, n), dtype=int)], and the two
    loops that fill the diagonal and what lies right of it. *)
Definition partition_matrix (S : list Z) : outcome ndarray :=
  let c := py_sum S in
  let n := List.length S in
  for_each (range 0 n)
    (fun i Qm =>
       obind (getitem S i) (fun si =>
       obind (setitem Qm i i (wrap64 (si * wrap64 (si - c)))) (fun Qm1 =>
       for_each (range (i + 1) n)
         (fun j Qm2 =>
            obind (getitem S i) (fun si' =>
            obind (getitem S j) (fun sj =>
            setitem Qm2 i j (wrap64 (wrap64 (2 * si') * sj)))))
         Qm1)))
    (zeros n n).

(** [[S[i] for (i, xi) in x.items() if keep(xi)]], from variable [i] on:
    [S[i]] is looked up only for the variables kept. *)
Fixpoint select_from (S : list Z) (keep : Z -> bool) (i : nat) (x : list Z)
  : outcome (list Z) :=
  match x with
  | [] => Returned []
  | xi :: t =>
      if keep xi then
        obind (getitem S i) (fun s =>
        obind (select_from S keep (i + 1) t) (fun r => Returned (s :: r)))
      else select_from S keep (i + 1) t
  end.

(** [xi > 0.5] and [xi <= 0.5] on an integer value. *)
Definition above_half (xi : Z) : bool := 1 <? 2 * xi.
Definition at_most_half (xi : Z) : bool := 2 * xi <=? 1.

(** The lines "Display solution" of the two solving cells. *)
Definition display_solution (S : list Z) (solution : Sample) : M unit :=
  S0 <- lift (select_from S above_half 0 (sample solution)) ;;
  S1 <- lift (select_from S at_most_half 0 (sample solution)) ;;
  emit (Print "sum(S0) %8d" [PyInt (py_sum S0)]) ;;;
  emit (Print "sum(S1) %8d" [PyInt (py_sum S1)]).

(** The cell "Solve on the CPU": [solve_qubo(Q)], then the display. *)
Definition solve_on_cpu (w : world) (S : list Z) (Qm : ndarray) : M unit :=
  res <- solve_qubo_defaults w (Ndarray Qm) ;;
  display_solution S (fst res).

(** The cell "Solve on the QPU": [solve_qubo(Q, sampler="QPU")], then the
    display. *)
Definition solve_on_qpu (w : world) (S : list Z) (Qm : ndarray) : M unit :=
  res <- solve_qubo w (Ndarray Qm) (PyStr "QPU") (PyInt 10) PyNone ;;
  display_solution S (fst res).

(** ** Notions for the further properties *)

Definition is_sampler_call (e : event) : bool :=
  match e with
  | Call_sample_qubo _ _ | Call_sample_qubo_chain _ _ _ => true
  | _ => false
  end.

Definition is_hardware_event (e : event) : bool :=
  match e with
  | New_DWaveSampler | New_AutoEmbeddingComposite
  | Call_sample_qubo_chain _ _ _ => true
  | _ => false
  end.

Definition Zsum (l : list Z) : Z := fold_right Z.add 0 l.

(** The numbers of [S] whose variable is kept, in order. *)
Fixpoint picked (keep : Z -> bool) (S x : list Z) : list Z :=
  match S, x with
  | s :: S', xi :: t => if keep xi then s :: picked keep S' t
                        else picked keep S' t
  | _, _ => []
  end.

(** The entry the cell gives the matrix at row [i], column [j]. *)
Definition partition_entry (S : list Z) (i j : nat) : Z :=
  let c := py_sum S in
  if (i =? j)%nat then
    wrap64 (nth i S 0 * wrap64 (nth i S 0 - c))
  else if (i <? j)%nat then
    wrap64 (wrap64 (2 * nth i S 0) * nth j S 0)
  else 0.

(** An [n] x [n] [int64] matrix with buffer [l]. *)
Definition int_matrix (n : nat) (l : list Z) : ndarray :=
  {| shape := [n; n]; buf := Int64 l |}.

(** The buffer after the pass of the outer loop for row [i]: the diagonal
    entry, then the entries right of it. *)
Definition fill_row (S : list Z) (n : nat) (l : list Z) (i : nat) : list Z :=
  fold_left (fun l' j => update l' (i * n + j) (partition_entry S i j))
            (range (i + 1) n)
            (update l (i * n + i) (partition_entry S i i)).

(** Positive numbers, few and small enough for no product of the cell to
    overflow. *)
Definition small_instance (S : list Z) : Prop :=
  Forall (fun s => 0 < s) S /\ 2 * (Zsum S * Zsum S) < 2 ^ 63.

(** A 0/1 assignment. *)
Definition binary (x : list Z) : Prop := Forall (fun xi => xi = 0 \/ xi = 1) x.

(** How far from even the split that a sample [x] gives is: the distance
    between the sums of the two lists the display lines build. *)
Definition imbalance (S x : list Z) : Z :=
  Z.abs (Zsum (picked above_half S x) - Zsum (picked at_most_half S x)).

(** Six numbers that split evenly, 3 + 2 = 1 + 1 + 2 + 1. *)
Definition S_six : list Z := [3; 1; 1; 2; 2; 1].

(** A world whose samplers answer an ensemble without entries. *)
Definition empty_world : world :=
  {| clock := clock stub_world;
     sa_sample_qubo := fun _ _ => Returned {| data := [] |};
     dwave_connect := None;
     qpu_sample_qubo := fun _ _ _ => Returned {| data := [] |} |}.

(** A world in which the device cannot be reached. *)
Definition offline_world : world :=
  {| clock := clock stub_world;
     sa_sample_qubo := stub_sample_qubo;
     dwave_connect := Some (ExternalError "no solver available");
     qpu_sample_qubo := fun Qm k _ => stub_sample_qubo Qm k |}.

(** The matrix the cell builds from [S_six]. *)
Definition Q_six : ndarray :=
  int_matrix 6 [-21;   6;   6;  12;  12;   6;
                  0;  -9;   2;   4;   4;   2;
                  0;   0;  -9;   4;   4;   2;
                  0;   0;   0; -16;   8;   4;
                  0;   0;   0;   0; -16;   4;
                  0;   0;   0;   0;   0;  -9].

(** * Properties *)

(** The four index pairs of a 2 x 2 matrix, under a bound on [i] and [j]. *)
Ltac index_cases i j :=
  destruct i as [|[|i]], j as [|[|j]]; try lia.

(** ** The reduction [min(..., key=...)] *)

Lemma Qltb_true (x y : Q) : Qltb x y = true <-> (x < y)%Q.
Proof.
  unfold Qltb. rewrite negb_true_iff. split; intro H.
  - apply Qnot_le_lt. intro Hle. apply Qle_bool_iff in Hle. congruence.
  - destruct (Qle_bool y x) eqn:E; [|reflexivity].
    apply Qle_bool_iff in E. exfalso. exact (Qlt_not_le _ _ H E).
Qed.

Lemma Qltb_false (x y : Q) : Qltb x y = false <-> (y <= x)%Q.
Proof.
  unfold Qltb. rewrite negb_false_iff. apply Qle_bool_iff.
Qed.

Section Reduction.

Context {A : Type} (key : A -> Q).

Lemma first_minimum_In m l : first_minimum key m l -> In m l.
Proof.
  intros (pre & post & -> & _). apply in_or_app. right. left. reflexivity.
Qed.

Lemma first_minimum_le m l :
  first_minimum key m l -> forall y, In y l -> (key m <= key y)%Q.
Proof.
  intros (pre & post & -> & Hpre & Hpost) y Hy.
  apply in_app_or in Hy. destruct Hy as [Hy | [<- | Hy]].
  - apply Qlt_le_weak. auto.
  - apply Qle_refl.
  - auto.
Qed.

(** A list has at most one first minimum. *)
Lemma first_minimum_unique m m' l :
  first_minimum key m l -> first_minimum key m' l -> m = m'.
Proof.
  intros (pre & post & E & Hpre & Hpost) H'.
  destruct H' as (pre' & post' & E' & Hpre' & Hpost').
  subst l. revert pre' E' Hpre'.
  induction pre as [|a pre IH]; intros [|a' pre'] E' Hpre'; simpl in *.
  - congruence.
  - injection E' as <- E'. exfalso.
    assert (Hin : In m' post) by (rewrite E'; apply in_or_app; right; now left).
    specialize (Hpost _ Hin). specialize (Hpre' m (or_introl eq_refl)).
    exact (Qlt_not_le _ _ Hpre' Hpost).
  - injection E' as -> E'. exfalso.
    assert (Hin : In m post')
      by (rewrite <- E'; apply in_or_app; right; now left).
    specialize (Hpost' _ Hin). specialize (Hpre m' (or_introl eq_refl)).
    exact (Qlt_not_le _ _ Hpre Hpost').
  - injection E' as <- E'.
    apply (IH (fun y Hy => Hpre y (or_intror Hy)) pre' E').
    intros y Hy. apply Hpre'. now right.
Qed.

Lemma min_from_first_minimum (l : list A) (best : A) :
  first_minimum key (min_from key best l) (best :: l).
Proof.
  revert best. induction l as [|x t IH]; intro best; simpl.
  - exists [], []. repeat split; simpl; intros; contradiction.
  - destruct (Qltb (key x) (key best)) eqn:E.
    + apply Qltb_true in E.
      pose proof (IH x) as Hx. pose proof (first_minimum_le _ _ Hx) as Hle.
      destruct Hx as (pre & post & Eq & Hpre & Hpost).
      exists (best :: pre), post. repeat split.
      * simpl. now rewrite Eq.
      * intros y [<- | Hy]; [|auto].
        eapply Qle_lt_trans; [apply (Hle x); now left | exact E].
      * exact Hpost.
    + apply Qltb_false in E.
      destruct (IH best) as (pre & post & Eq & Hpre & Hpost).
      destruct pre as [|b pre]; simpl in Eq.
      * injection Eq as Eb Et. exists [], (x :: t). repeat split.
        -- simpl. now rewrite <- Eb.
        -- intros y [].
        -- intros y [<- | Hy].
           ++ now rewrite <- Eb.
           ++ apply Hpost. now rewrite <- Et.
      * injection Eq as <- Et. exists (best :: x :: pre), post. repeat split.
        -- simpl. do 2 f_equal. exact Et.
        -- intros y [<- | [<- | Hy]].
           ++ apply Hpre. now left.
           ++ eapply Qlt_le_trans; [apply Hpre; now left | exact E].
           ++ apply Hpre. now right.
        -- exact Hpost.
Qed.

Lemma py_min_returns (l : list A) :
  l <> [] -> exists m, py_min key l = Returned m /\ first_minimum key m l.
Proof.
  destruct l as [|x t]; [congruence|]. intros _.
  exists (min_from key x t). split; [reflexivity|].
  apply min_from_first_minimum.
Qed.

Lemma py_min_empty : py_min key [] = Raised ValueError.
Proof. reflexivity. Qed.

End Reduction.

(** ** The shape of a run of [solve_qubo] *)

Lemma solve_qubo_unfold w Qo sampler k cs :
  solve_qubo w Qo sampler k cs =
  (Qm <- assert_ndarray Qo ;;
   py_assert (py_in sampler ["CPU"; "QPU"]) ;;;
   n <- lift (shape0 Qm) ;;
   emit (print_solving Qm n sampler) ;;;
   response <- sampler_call w Qm sampler k cs ;;
   reduce w response).
Proof. reflexivity. Qed.

Lemma bind_Returned {A B} (a : A) (t : list event) (f : A -> M B) :
  bind (Returned a, t) f = (fst (f a), t ++ snd (f a)).
Proof. unfold bind. destruct (f a). reflexivity. Qed.

Lemma reduce_eq w r :
  reduce w r =
  (match py_min energy (data r) with
   | Returned s => Returned (s, r)
   | Raised e => Raised e
   end, [print_solved w]).
Proof.
  unfold reduce, emit, lift, ret, bind.
  destruct (py_min energy (data r)); reflexivity.
Qed.

(** Once the two assertions hold and [Q] has a first dimension, the run is
    the first line, the sampler call, and the reduction of its answer. *)
Lemma solve_qubo_valid w Qm sampler k cs n rest :
  py_in sampler ["CPU"; "QPU"] = true ->
  shape Qm = n :: rest ->
  solve_qubo w (Ndarray Qm) sampler k cs =
  match sampler_call w Qm sampler k cs with
  | (Raised e, t) => (Raised e, print_solving Qm (Z.of_nat n) sampler :: t)
  | (Returned r, t) =>
      (match py_min energy (data r) with
       | Returned s => Returned (s, r)
       | Raised e => Raised e
       end,
       print_solving Qm (Z.of_nat n) sampler :: t ++ [print_solved w])
  end.
Proof.
  intros Hin Hshape. rewrite solve_qubo_unfold.
  unfold assert_ndarray, py_assert, ret. rewrite Hin, bind_Returned.
  unfold ret. rewrite bind_Returned.
  unfold shape0, lift, emit. rewrite Hshape, !bind_Returned.
  destruct (sampler_call w Qm sampler k cs) as [[r | e] t].
  - rewrite bind_Returned, reduce_eq. reflexivity.
  - reflexivity.
Qed.

(** The local branch of the sampler call. *)
Lemma sampler_call_cpu w Qm k cs :
  sampler_call w Qm (PyStr "CPU") k cs =
  (sa_sample_qubo w Qm k,
   [New_SimulatedAnnealingSampler; Call_sample_qubo Qm k]).
Proof.
  unfold sampler_call, emit, lift, bind. simpl. reflexivity.
Qed.

(** The hardware branch, once the chain strength is settled and the device
    is reached. *)
Lemma sampler_call_qpu w Qm sampler k cs c :
  py_eq_str sampler "CPU" = false ->
  resolve_chain_strength Qm cs = (Returned c, []) ->
  dwave_connect w = None ->
  sampler_call w Qm sampler k cs =
  (qpu_sample_qubo w Qm k c,
   [New_DWaveSampler; New_AutoEmbeddingComposite;
    Call_sample_qubo_chain Qm k c]).
Proof.
  intros Hs Hc Hd. unfold sampler_call. rewrite Hs, Hc.
  unfold new_DWaveSampler. rewrite Hd.
  unfold emit, lift, ret, bind. simpl. reflexivity.
Qed.

(** An answer of the sampler call is an answer of one of the two samplers of
    the world, about the matrix and the number of reads given. *)
Lemma sampler_call_returned w Qm sampler k cs r :
  result (sampler_call w Qm sampler k cs) = Returned r ->
  sa_sample_qubo w Qm k = Returned r \/
  exists c, qpu_sample_qubo w Qm k c = Returned r.
Proof.
  unfold sampler_call, result.
  destruct (py_eq_str sampler "CPU").
  - unfold emit, lift, bind. simpl. auto.
  - unfold resolve_chain_strength, new_DWaveSampler.
    destruct cs; try destruct (default_chain_strength Qm);
      destruct (dwave_connect w);
      unfold emit, lift, ret, raise, bind; simpl;
      intro H; try discriminate; right; eexists; exact H.
Qed.

Lemma square_shape Qm : square Qm -> exists n rest, shape Qm = n :: rest.
Proof. intros [n H]. eauto. Qed.

(** A run whose sampler call answers a non-empty sample set returns that set
    and its first minimum of energy. *)
Lemma solve_qubo_returns w Qm sampler k cs r :
  py_in sampler ["CPU"; "QPU"] = true ->
  shape Qm <> [] ->
  result (sampler_call w Qm sampler k cs) = Returned r ->
  data r <> [] ->
  exists sol,
    result (solve_qubo w (Ndarray Qm) sampler k cs) = Returned (sol, r) /\
    py_min energy (data r) = Returned sol /\
    first_minimum energy sol (data r).
Proof.
  intros Hin Hshape Hcall Hdata.
  destruct (shape Qm) as [|n rest] eqn:Es; [congruence|].
  rewrite (solve_qubo_valid w Qm sampler k cs n rest Hin Es).
  destruct (sampler_call w Qm sampler k cs) as [[r' | e] t];
    unfold result in Hcall; simpl in Hcall; [|discriminate].
  injection Hcall as ->.
  destruct (py_min_returns energy (data r) Hdata) as (sol & Hmin & Hfirst).
  exists sol. rewrite Hmin. unfold result. simpl. auto.
Qed.

(** ** The returned solution *)

Lemma square_Q_small : square Q_small.
Proof. exists 2%nat. reflexivity. Qed.

(** C1: for a square matrix and [k >= 1], the solution [solve_qubo] returns
    has the least energy of the returned ensemble, and taking the minimum of
    that ensemble again gives the same solution.  [solve_qubo] does return
    as soon as the sampler call answers an ensemble that is not empty. *)
Theorem solution_energy_is_ensemble_minimum
    (w : world) (Qm : ndarray) (sampler : pyval) (k : Z) (cs : pyval)
    (r : SampleSet) :
  square Qm -> 1 <= k ->
  py_in sampler ["CPU"; "QPU"] = true ->
  result (sampler_call w Qm sampler (PyInt k) cs) = Returned r ->
  data r <> [] ->
  exists sol,
    result (solve_qubo w (Ndarray Qm) sampler (PyInt k) cs)
      = Returned (sol, r) /\
    minimum_of (energy sol) (map energy (data r)) /\
    py_min energy (data r) = Returned sol.
Proof.
  intros Hsq _ Hin Hcall Hdata.
  destruct (square_shape _ Hsq) as (n & rest & Hs).
  assert (Hne : shape Qm <> []) by congruence.
  destruct (solve_qubo_returns w Qm sampler (PyInt k) cs r Hin Hne Hcall Hdata)
    as (sol & Hres & Hmin & Hfirst).
  exists sol. repeat split; trivial.
  - apply in_map. exact (first_minimum_In energy _ _ Hfirst).
  - intros y Hy. apply in_map_iff in Hy. destruct Hy as (e & <- & He).
    exact (first_minimum_le energy _ _ Hfirst e He).
Qed.

Lemma solution_energy_is_ensemble_minimum_witness :
  exists sol,
    result (solve_qubo stub_world (Ndarray Q_small) (PyStr "CPU") (PyInt 4)
                       PyNone) = Returned (sol, r_small) /\
    minimum_of (energy sol) (map energy (data r_small)) /\
    py_min energy (data r_small) = Returned sol.
Proof.
  apply (solution_energy_is_ensemble_minimum
           stub_world Q_small (PyStr "CPU") 4 PyNone r_small).
  - exact square_Q_small.
  - lia.
  - reflexivity.
  - reflexivity.
  - vm_compute. discriminate.
Defined.

(** C6: when several entries of the ensemble have the least energy, the
    solution is the first of them in the order of the ensemble: it stands at
    some position [i], no entry has less energy, and every entry of the same
    energy stands at [i] or later. *)
Theorem solution_is_first_minimum
    (w : world) (Qm : ndarray) (sampler k cs : pyval) (r : SampleSet) :
  py_in sampler ["CPU"; "QPU"] = true ->
  shape Qm <> [] ->
  result (sampler_call w Qm sampler k cs) = Returned r ->
  data r <> [] ->
  exists sol i,
    result (solve_qubo w (Ndarray Qm) sampler k cs) = Returned (sol, r) /\
    nth_error (data r) i = Some sol /\
    (forall e, In e (data r) -> (energy sol <= energy e)%Q) /\
    (forall j e, nth_error (data r) j = Some e ->
                 (energy e == energy sol)%Q -> (i <= j)%nat).
Proof.
  intros Hin Hne Hcall Hdata.
  destruct (solve_qubo_returns w Qm sampler k cs r Hin Hne Hcall Hdata)
    as (sol & Hres & _ & Hfirst).
  pose proof (first_minimum_le energy _ _ Hfirst) as Hle.
  destruct Hfirst as (pre & post & Eq & Hpre & Hpost).
  exists sol, (List.length pre). repeat split; trivial.
  - rewrite Eq, nth_error_app2, Nat.sub_diag by apply Nat.le_refl.
    reflexivity.
  - intros j e Hj Heq.
    destruct (Nat.le_gt_cases (List.length pre) j) as [|Hlt]; [assumption|].
    exfalso. rewrite Eq, nth_error_app1 in Hj by exact Hlt.
    apply nth_error_In in Hj. specialize (Hpre e Hj).
    rewrite Heq in Hpre. exact (Qlt_irrefl _ Hpre).
Qed.

Lemma solution_is_first_minimum_witness :
  exists sol i,
    result (solve_qubo tie_world (Ndarray Q_small) (PyStr "CPU") (PyInt 4)
                       PyNone) = Returned (sol, r_tie) /\
    nth_error (data r_tie) i = Some sol /\
    (forall e, In e (data r_tie) -> (energy sol <= energy e)%Q) /\
    (forall j e, nth_error (data r_tie) j = Some e ->
                 (energy e == energy sol)%Q -> (i <= j)%nat).
Proof.
  apply (solution_is_first_minimum
           tie_world Q_small (PyStr "CPU") (PyInt 4) PyNone r_tie).
  - reflexivity.
  - discriminate.
  - reflexivity.
  - discriminate.
Defined.

(** On that ensemble the solution is the entry at position 1, not the one of
    equal energy at position 3. *)
Example tie_broken_by_order :
  result (solve_qubo tie_world (Ndarray Q_small) (PyStr "CPU") (PyInt 4)
                     PyNone)
  = Returned ({| sample := [1; 1]; energy := -2 |}, r_tie).
Proof. reflexivity. Qed.

(** ** The ensemble *)

Lemma stub_rows_length Qm k : List.length (stub_rows Qm k) = k.
Proof. unfold stub_rows. now rewrite length_map, length_seq. Qed.

Lemma stub_energies Qm k :
  energies_are_objective Qm {| data := stub_rows Qm k |}.
Proof.
  unfold energies_are_objective, stub_rows. simpl.
  apply Forall_forall. intros e He. apply in_map_iff in He.
  destruct He as (j & <- & _). simpl. apply Qeq_refl.
Qed.

Lemma stub_sample_qubo_returned Qm k r :
  stub_sample_qubo Qm k = Returned r ->
  exists n,
    k = PyInt n /\ 1 <= n /\ r = {| data := stub_rows Qm (Z.to_nat n) |}.
Proof.
  unfold stub_sample_qubo. destruct (squareb Qm); [|discriminate].
  destruct k; try discriminate.
  destruct (1 <=? z) eqn:E; [|discriminate].
  intro H. injection H as <-. exists z. apply Z.leb_le in E. auto.
Qed.

(** The stand-in answers as many rows as reads are asked for. *)
Lemma stub_world_num_reads : sa_num_reads_contract stub_world.
Proof.
  intros Qm k r Hk H. simpl in H.
  apply stub_sample_qubo_returned in H.
  destruct H as (n & E & Hn & ->). injection E as <-.
  simpl. rewrite stub_rows_length. lia.
Qed.

(** C7: with the local backend, a square matrix and [k >= 1], the ensemble
    [solve_qubo] returns has exactly [k] entries: the sampler is called with
    [num_reads=k] and its answer is returned as it is, and the sampler
    answers [num_reads] rows ([sa_num_reads_contract]). *)
Theorem cpu_ensemble_has_k_entries
    (w : world) (Qm : ndarray) (k : Z) (cs : pyval) (r : SampleSet) :
  sa_num_reads_contract w ->
  square Qm -> 1 <= k ->
  sa_sample_qubo w Qm (PyInt k) = Returned r ->
  exists sol,
    solve_qubo w (Ndarray Qm) (PyStr "CPU") (PyInt k) cs
      = (Returned (sol, r),
         [print_solving Qm (Z.of_nat (hd 0%nat (shape Qm))) (PyStr "CPU");
          New_SimulatedAnnealingSampler;
          Call_sample_qubo Qm (PyInt k);
          print_solved w]) /\
    Z.of_nat (List.length (data r)) = k.
Proof.
  intros Hc Hsq Hk Hsa.
  destruct (square_shape _ Hsq) as (n & rest & Hs).
  pose proof (Hc Qm k r Hk Hsa) as Hlen.
  assert (Hdata : data r <> []).
  { intro E. rewrite E in Hlen. simpl in Hlen. lia. }
  destruct (py_min_returns energy (data r) Hdata) as (sol & Hmin & _).
  exists sol. split; [|exact Hlen].
  rewrite (solve_qubo_valid w Qm (PyStr "CPU") (PyInt k) cs n rest eq_refl Hs).
  rewrite sampler_call_cpu, Hsa, Hmin, Hs. reflexivity.
Qed.

Lemma cpu_ensemble_has_k_entries_witness :
  exists sol,
    solve_qubo stub_world (Ndarray Q_small) (PyStr "CPU") (PyInt 4) PyNone
      = (Returned (sol, r_small),
         [print_solving Q_small (Z.of_nat (hd 0%nat (shape Q_small)))
                        (PyStr "CPU");
          New_SimulatedAnnealingSampler;
          Call_sample_qubo Q_small (PyInt 4);
          print_solved stub_world]) /\
    Z.of_nat (List.length (data r_small)) = 4.
Proof.
  apply (cpu_ensemble_has_k_entries stub_world Q_small 4 PyNone r_small).
  - exact stub_world_num_reads.
  - exact square_Q_small.
  - lia.
  - reflexivity.
Defined.

(** On [Q_small] the stand-in's four reads are the four assignments, and the
    solution is the optimum [x = (1, 1)], of objective [1 + 1 - 4 = -2]. *)
Example small_instance_optimum :
  result (solve_qubo stub_world (Ndarray Q_small) (PyStr "CPU") (PyInt 4)
                     PyNone)
  = Returned ({| sample := [1; 1]; energy := -2 |}, r_small).
Proof. vm_compute. reflexivity. Qed.

(** The docstring of [solve_qubo] starts its inner sum at [i + 1] and so
    leaves the diagonal out; the objective of the specification counts it.
    They differ already on the 1 x 1 matrix [[-1]] at [x = (1)]. *)
Example docstring_leaves_diagonal_out :
  let Q1 := {| shape := [1%nat; 1%nat]; buf := Int64 [-1] |} in
  qubo_objective Q1 [1] = (-1 # 1)%Q /\ docstring_objective Q1 [1] = 0%Q.
Proof. split; reflexivity. Qed.

(** ** Validation *)

Lemma py_in_supported_false (sampler : pyval) :
  sampler <> PyStr "CPU" -> sampler <> PyStr "QPU" ->
  py_in sampler ["CPU"; "QPU"] = false.
Proof.
  intros Hc Hq. unfold py_in. simpl.
  destruct sampler; simpl; try reflexivity.
  destruct (String.eqb_spec s "CPU") as [-> | _]; [congruence|].
  destruct (String.eqb_spec s "QPU") as [-> | _]; [congruence|].
  reflexivity.
Qed.

(** C5: a backend selector other than ["CPU"] and ["QPU"] fails validation:
    [solve_qubo] raises the assertion error with nothing printed, no sampler
    object constructed and no sampler called. *)
Theorem unsupported_sampler_fails_validation
    (w : world) (Qo : pyobj) (sampler k cs : pyval) :
  sampler <> PyStr "CPU" -> sampler <> PyStr "QPU" ->
  solve_qubo w Qo sampler k cs = (Raised AssertionError, []).
Proof.
  intros Hc Hq. rewrite solve_qubo_unfold.
  destruct Qo as [Qm | v]; [|reflexivity].
  unfold assert_ndarray, ret. rewrite bind_Returned.
  rewrite (py_in_supported_false sampler Hc Hq). reflexivity.
Qed.

Lemma unsupported_sampler_fails_validation_witness :
  solve_qubo stub_world (Ndarray Q_small) (PyStr "GPU") (PyInt 10) PyNone
  = (Raised AssertionError, []).
Proof.
  apply (unsupported_sampler_fails_validation
           stub_world (Ndarray Q_small) (PyStr "GPU") (PyInt 10) PyNone);
    discriminate.
Defined.

(** The selector is compared as a string, letter for letter. *)
Example lowercase_selector_refused :
  solve_qubo stub_world (Ndarray Q_small) (PyStr "cpu") (PyInt 10) PyNone
  = (Raised AssertionError, []).
Proof. reflexivity. Qed.

(** C10: an argument [Q] that is not a numpy array fails the type assertion:
    [solve_qubo] raises the assertion error with nothing printed, no sampler
    object constructed and no sampler called, whatever the other
    arguments. *)
Theorem non_ndarray_fails_assertion
    (w : world) (v : pyval) (sampler k cs : pyval) :
  solve_qubo w (Other v) sampler k cs = (Raised AssertionError, []).
Proof. reflexivity. Qed.

(** The square grid [[1, -4], [0, 1]] as a list of lists is refused. *)
Example list_of_lists_refused (w : world) :
  solve_qubo_defaults w
    (Other (PyList [PyList [PyInt 1; PyInt (-4)]; PyList [PyInt 0; PyInt 1]]))
  = (Raised AssertionError, []).
Proof. reflexivity. Qed.

(** ** The local backend and the chain strength *)

(** With the local backend the run does not depend on [chain_strength]. *)
Lemma solve_qubo_cpu_eq w Qo k cs :
  solve_qubo w Qo (PyStr "CPU") k cs = solve_qubo w Qo (PyStr "CPU") k PyNone.
Proof.
  destruct Qo as [Qm | v]; [|reflexivity].
  destruct (shape Qm) as [|n rest] eqn:Es.
  - rewrite !solve_qubo_unfold. unfold assert_ndarray, ret.
    rewrite !bind_Returned. simpl. unfold shape0. rewrite Es. reflexivity.
  - rewrite !(solve_qubo_valid w Qm (PyStr "CPU") k _ n rest eq_refl Es).
    rewrite !sampler_call_cpu. reflexivity.
Qed.

Lemma solve_qubo_cpu_no_chain_call w Qo k :
  forallb (fun e => negb (is_chain_call e))
          (trace (solve_qubo w Qo (PyStr "CPU") k PyNone)) = true.
Proof.
  destruct Qo as [Qm | v]; [|reflexivity].
  destruct (shape Qm) as [|n rest] eqn:Es.
  - rewrite solve_qubo_unfold. unfold assert_ndarray, ret.
    rewrite !bind_Returned. simpl. unfold shape0. rewrite Es. reflexivity.
  - rewrite (solve_qubo_valid w Qm (PyStr "CPU") k _ n rest eq_refl Es).
    rewrite sampler_call_cpu.
    destruct (sa_sample_qubo w Qm k) as [r | e]; reflexivity.
Qed.

(** C9: with the local backend, [chain_strength] has no effect: for any two
    values of it the run of [solve_qubo] is the same, outcome and trace, and
    none of its events is a call that carries a chain strength. *)
Theorem cpu_ignores_chain_strength
    (w : world) (Qo : pyobj) (k c1 c2 : pyval) :
  solve_qubo w Qo (PyStr "CPU") k c1 = solve_qubo w Qo (PyStr "CPU") k c2 /\
  forallb (fun e => negb (is_chain_call e))
          (trace (solve_qubo w Qo (PyStr "CPU") k c1)) = true.
Proof.
  split.
  - rewrite (solve_qubo_cpu_eq w Qo k c1), (solve_qubo_cpu_eq w Qo k c2).
    reflexivity.
  - rewrite solve_qubo_cpu_eq. apply solve_qubo_cpu_no_chain_call.
Qed.

(** ** Matrices that are not square *)

Lemma squareb_square Qm : squareb Qm = true <-> square Qm.
Proof.
  unfold squareb, square. split.
  - destruct (shape Qm) as [|n [|m [|]]]; try discriminate.
    intro H. apply Nat.eqb_eq in H. subst. eauto.
  - intros [n ->]. apply Nat.eqb_refl.
Qed.

(** The run with the local backend on an array of at least one dimension:
    nothing in it looks at the second dimension. *)
Lemma solve_qubo_cpu_run w Qm k cs n rest :
  shape Qm = n :: rest ->
  solve_qubo w (Ndarray Qm) (PyStr "CPU") k cs =
  match sa_sample_qubo w Qm k with
  | Raised e =>
      (Raised e,
       [print_solving Qm (Z.of_nat n) (PyStr "CPU");
        New_SimulatedAnnealingSampler; Call_sample_qubo Qm k])
  | Returned r =>
      (match py_min energy (data r) with
       | Returned s => Returned (s, r)
       | Raised e => Raised e
       end,
       [print_solving Qm (Z.of_nat n) (PyStr "CPU");
        New_SimulatedAnnealingSampler; Call_sample_qubo Qm k;
        print_solved w])
  end.
Proof.
  intro Hs.
  rewrite (solve_qubo_valid w Qm (PyStr "CPU") k cs n rest eq_refl Hs).
  rewrite sampler_call_cpu.
  destruct (sa_sample_qubo w Qm k); reflexivity.
Qed.

(** C4, as the code has it: [solve_qubo] does not check that the matrix is
    square.  A numpy array that is not square (and has a first dimension)
    passes the two assertions; with the local backend the first line is
    printed, the sampler is constructed and called with the matrix, and what
    [solve_qubo] raises or returns is what the sampler's answer gives. *)
Theorem non_square_reaches_sampler
    (w : world) (Qm : ndarray) (k cs : pyval) (n : nat) (rest : list nat) :
  ~ square Qm -> shape Qm = n :: rest ->
  exists t,
    trace (solve_qubo w (Ndarray Qm) (PyStr "CPU") k cs)
      = print_solving Qm (Z.of_nat n) (PyStr "CPU")
        :: New_SimulatedAnnealingSampler :: Call_sample_qubo Qm k :: t /\
    result (solve_qubo w (Ndarray Qm) (PyStr "CPU") k cs)
      = match sa_sample_qubo w Qm k with
        | Raised e => Raised e
        | Returned r =>
            match py_min energy (data r) with
            | Returned s => Returned (s, r)
            | Raised e => Raised e
            end
        end.
Proof.
  intros _ Hs. rewrite (solve_qubo_cpu_run w Qm k cs n rest Hs).
  destruct (sa_sample_qubo w Qm k) as [r | e]; eexists; split; reflexivity.
Qed.

Lemma not_square_Q_2x3 : ~ square Q_2x3.
Proof.
  intro H. apply squareb_square in H. discriminate.
Defined.

Lemma non_square_reaches_sampler_witness :
  exists t,
    trace (solve_qubo stub_world (Ndarray Q_2x3) (PyStr "CPU") (PyInt 10)
                      PyNone)
      = print_solving Q_2x3 (Z.of_nat 2) (PyStr "CPU")
        :: New_SimulatedAnnealingSampler
        :: Call_sample_qubo Q_2x3 (PyInt 10) :: t /\
    result (solve_qubo stub_world (Ndarray Q_2x3) (PyStr "CPU") (PyInt 10)
                       PyNone)
      = match sa_sample_qubo stub_world Q_2x3 (PyInt 10) with
        | Raised e => Raised e
        | Returned r =>
            match py_min energy (data r) with
            | Returned s => Returned (s, r)
            | Raised e => Raised e
            end
        end.
Proof.
  apply (non_square_reaches_sampler
           stub_world Q_2x3 (PyInt 10) PyNone 2%nat [3%nat]).
  - exact not_square_Q_2x3.
  - reflexivity.
Defined.

(** C4, as stated, fails on the 2 x 3 matrix [[1, 2, 3], [4, 5, 6]] with the
    defaults: whatever the sampler answers, the run starts with the printed
    line, the construction of the sampler and the call with that matrix, so
    no validation error came first. *)
Lemma non_square_not_rejected :
  squareb Q_2x3 = false /\
  forall w,
    firstn 3 (trace (solve_qubo_defaults w (Ndarray Q_2x3)))
    = [print_solving Q_2x3 2 (PyStr "CPU");
       New_SimulatedAnnealingSampler;
       Call_sample_qubo Q_2x3 (PyInt 10)].
Proof.
  split; [reflexivity|]. intro w. unfold solve_qubo_defaults.
  rewrite (solve_qubo_cpu_run w Q_2x3 (PyInt 10) PyNone 2%nat [3%nat] eq_refl).
  destruct (sa_sample_qubo w Q_2x3 (PyInt 10)); reflexivity.
Qed.

(** ** The chain strength of the hardware backend *)

Lemma resolve_chain_strength_given Qm cs :
  cs <> PyNone -> resolve_chain_strength Qm cs = (Returned cs, []).
Proof. destruct cs; [congruence | reflexivity ..]. Qed.

Lemma resolve_chain_strength_default Qm c :
  default_chain_strength Qm = Returned c ->
  resolve_chain_strength Qm PyNone = (Returned (PyInt c), []).
Proof.
  intro H. unfold resolve_chain_strength, lift. rewrite H. reflexivity.
Qed.

(** The run with the hardware backend, once the chain strength is settled
    and the device is reached. *)
Lemma solve_qubo_qpu_run w Qm k cs c n rest :
  shape Qm = n :: rest ->
  resolve_chain_strength Qm cs = (Returned c, []) ->
  dwave_connect w = None ->
  solve_qubo w (Ndarray Qm) (PyStr "QPU") k cs =
  match qpu_sample_qubo w Qm k c with
  | Raised e =>
      (Raised e,
       [print_solving Qm (Z.of_nat n) (PyStr "QPU");
        New_DWaveSampler; New_AutoEmbeddingComposite;
        Call_sample_qubo_chain Qm k c])
  | Returned r =>
      (match py_min energy (data r) with
       | Returned s => Returned (s, r)
       | Raised e => Raised e
       end,
       [print_solving Qm (Z.of_nat n) (PyStr "QPU");
        New_DWaveSampler; New_AutoEmbeddingComposite;
        Call_sample_qubo_chain Qm k c; print_solved w])
  end.
Proof.
  intros Hs Hc Hd.
  rewrite (solve_qubo_valid w Qm (PyStr "QPU") k cs n rest eq_refl Hs).
  rewrite (sampler_call_qpu w Qm (PyStr "QPU") k cs c eq_refl Hc Hd).
  destruct (qpu_sample_qubo w Qm k c); reflexivity.
Qed.

Lemma passes_resolved w Qm k cs c n rest :
  shape Qm = n :: rest ->
  resolve_chain_strength Qm cs = (Returned c, []) ->
  dwave_connect w = None ->
  passes_chain_strength w Qm k cs c.
Proof.
  intros Hs Hc Hd. unfold passes_chain_strength.
  rewrite (solve_qubo_qpu_run w Qm k cs c n rest Hs Hc Hd), Hs.
  destruct (qpu_sample_qubo w Qm k c); eexists; reflexivity.
Qed.

Lemma wrap64_small z : - 2 ^ 63 <= z < 2 ^ 63 -> wrap64 z = z.
Proof.
  intro H. unfold wrap64. rewrite Z.mod_small; lia.
Qed.

Lemma fold_left_max l a :
  0 <= a -> fold_left Z.max l a = Z.max a (fold_right Z.max 0 l).
Proof.
  revert a. induction l as [|x t IH]; intros a Ha; simpl.
  - lia.
  - rewrite IH by lia. lia.
Qed.

Lemma max_abs_bound l :
  Forall (fun z => 10 * Z.abs z < 2 ^ 63) l ->
  0 <= max_abs l /\ 10 * max_abs l < 2 ^ 63.
Proof.
  unfold max_abs. remember (2 ^ 63) as B eqn:EB.
  assert (HB : 0 < B) by (subst B; reflexivity).
  clear EB. induction 1 as [|z t Hz _ IH]; cbn [fold_right map]; lia.
Qed.

Lemma map_wrap_abs l :
  Forall (fun z => 10 * Z.abs z < 2 ^ 63) l ->
  map (fun z => wrap64 (Z.abs z)) l = map Z.abs l.
Proof.
  induction 1 as [|z t Hz _ IH]; simpl; [reflexivity|].
  rewrite IH, wrap64_small by lia. reflexivity.
Qed.

(** On an [int64] matrix whose entries are small enough for the product not
    to overflow, the default is ten times the greatest absolute value. *)
Lemma default_chain_strength_int64 Qm l :
  buf Qm = Int64 l -> l <> [] ->
  Forall (fun z => 10 * Z.abs z < 2 ^ 63) l ->
  default_chain_strength Qm = Returned (10 * max_abs l).
Proof.
  intros Hb Hl Hsmall.
  pose proof (max_abs_bound l Hsmall) as [Hlo Hhi].
  unfold default_chain_strength, Numpy.max, Numpy.abs. cbn [buf shape].
  rewrite Hb, (map_wrap_abs l Hsmall).
  destruct l as [|z t]; [congruence|]. cbn [map].
  rewrite fold_left_max by lia.
  change (Z.max (Z.abs z) (fold_right Z.max 0 (map Z.abs t)))
    with (max_abs (z :: t)).
  unfold times10, to_int. rewrite wrap64_small by lia. reflexivity.
Qed.

(** On a [float64] matrix the default is the integer part of the rounded
    product. *)
Lemma default_chain_strength_float64 Qm f l :
  buf Qm = Float64 (f :: l) ->
  default_chain_strength Qm
  = trunc_float (10 * fold_left fmax (map PrimFloat.abs l) (PrimFloat.abs f)).
Proof.
  intro Hb. unfold default_chain_strength, Numpy.max, Numpy.abs. simpl.
  rewrite Hb. reflexivity.
Qed.

Lemma Qtrunc_comp (q r : Q) : (q == r)%Q -> Qtrunc q = Qtrunc r.
Proof.
  destruct q as [a b], r as [c d]. unfold Qeq, Qtrunc. simpl. intro H.
  rewrite <- (Z.quot_mul_cancel_r a (Z.pos b) (Z.pos d)) by lia.
  rewrite H, (Z.mul_comm (Z.pos b) (Z.pos d)).
  apply Z.quot_mul_cancel_r; lia.
Qed.

Lemma Qtrunc_inject_Z z : Qtrunc (inject_Z z) = z.
Proof. unfold Qtrunc. simpl. apply Z.quot_1_r. Qed.

Lemma Qtrunc_finite (sg : bool) (m : positive) (e : Z) :
  (if sg
   then - (if 0 <=? e then Z.pos m * 2 ^ e else Z.pos m / 2 ^ (- e))
   else (if 0 <=? e then Z.pos m * 2 ^ e else Z.pos m / 2 ^ (- e)))
  = Qtrunc (inject_Z (if sg then Z.neg m else Z.pos m) * Qpower 2 e).
Proof.
  set (a := if sg then Z.neg m else Z.pos m).
  assert (Ha : a = if sg then - Z.pos m else Z.pos m)
    by (subst a; destruct sg; reflexivity).
  destruct (Z.leb_spec 0 e) as [He | He].
  - (* the float is an integer *)
    rewrite (Qtrunc_comp _ (inject_Z (a * 2 ^ e))).
    + rewrite Qtrunc_inject_Z, Ha. destruct sg; ring.
    + rewrite inject_Z_mult, Zpower_Qpower by lia. reflexivity.
  - (* it has a fractional part *)
    destruct e as [|p|p]; try lia.
    change (- Z.neg p) with (Z.pos p).
    set (d := 2 ^ Z.pos p).
    assert (Hd : 0 < d) by (subst d; apply Z.pow_pos_nonneg; lia).
    rewrite (Qtrunc_comp _ (a # Z.to_pos d)).
    + unfold Qtrunc. cbn [Qnum Qden].
      rewrite (Z2Pos.id d Hd). rewrite Ha.
      destruct sg.
      * rewrite Z.quot_opp_l by lia.
        rewrite Z.quot_div_nonneg by lia. reflexivity.
      * rewrite Z.quot_div_nonneg by lia. reflexivity.
    + rewrite (Qmake_Qdiv a (Z.to_pos d)), (Z2Pos.id d Hd).
      unfold Qdiv. apply Qmult_comp; [reflexivity|].
      change (Qpower 2 (Z.neg p)) with (/ Qpower (inject_Z 2) (Z.pos p))%Q.
      apply Qinv_comp. subst d. rewrite Zpower_Qpower by lia. reflexivity.
Qed.

(** [int] of a finite float is the integer part, toward zero, of the number
    the float denotes. *)
Lemma trunc_float_Qtrunc (f : float) (c : Z) :
  trunc_float f = Returned c -> c = Qtrunc (value (F64 f)).
Proof.
  unfold trunc_float, value.
  destruct (Prim2SF f) as [sg | sg | | sg m e]; try discriminate.
  - intro H. injection H as <-. reflexivity.
  - intro H. injection H as <-. apply Qtrunc_finite.
Qed.

(** C3, as the code has it: with the hardware backend, an explicit chain
    strength is passed to the sampler unchanged; without one the sampler
    gets [int(10 * np.max(np.abs(Q)))], an integer: exactly ten times the
    greatest absolute value on an [int64] matrix whose product does not
    overflow, and on a [float64] matrix the integer part, toward zero, of
    the product. *)
Theorem chain_strength_passed (w : world) (Qm : ndarray) (k : pyval) :
  shape Qm <> [] -> dwave_connect w = None ->
  (forall cs, cs <> PyNone -> passes_chain_strength w Qm k cs cs) /\
  (forall c, default_chain_strength Qm = Returned c ->
             passes_chain_strength w Qm k PyNone (PyInt c)) /\
  (forall l, buf Qm = Int64 l -> l <> [] ->
             Forall (fun z => 10 * Z.abs z < 2 ^ 63) l ->
             default_chain_strength Qm = Returned (10 * max_abs l)) /\
  (forall m c, Numpy.max (Numpy.abs Qm) = Returned (F64 m) ->
               default_chain_strength Qm = Returned c ->
               c = Qtrunc (value (F64 (10 * m)%float))).
Proof.
  intros Hne Hd.
  destruct (shape Qm) as [|n rest] eqn:Hs; [congruence|].
  repeat split.
  - intros cs Hcs.
    exact (passes_resolved w Qm k cs cs n rest Hs
             (resolve_chain_strength_given Qm cs Hcs) Hd).
  - intros c Hc.
    exact (passes_resolved w Qm k PyNone (PyInt c) n rest Hs
             (resolve_chain_strength_default Qm c Hc) Hd).
  - apply default_chain_strength_int64.
  - intros m c Hm Hc. unfold default_chain_strength in Hc.
    rewrite Hm in Hc. apply trunc_float_Qtrunc. exact Hc.
Qed.

Lemma chain_strength_passed_witness :
  (forall cs, cs <> PyNone ->
              passes_chain_strength stub_world Q_quarter (PyInt 10) cs cs) /\
  (forall c, default_chain_strength Q_quarter = Returned c ->
             passes_chain_strength stub_world Q_quarter (PyInt 10) PyNone
                                   (PyInt c)) /\
  (forall l, buf Q_quarter = Int64 l -> l <> [] ->
             Forall (fun z => 10 * Z.abs z < 2 ^ 63) l ->
             default_chain_strength Q_quarter = Returned (10 * max_abs l)) /\
  (forall m c, Numpy.max (Numpy.abs Q_quarter) = Returned (F64 m) ->
               default_chain_strength Q_quarter = Returned c ->
               c = Qtrunc (value (F64 (10 * m)%float))).
Proof.
  apply (chain_strength_passed stub_world Q_quarter (PyInt 10)).
  - discriminate.
  - reflexivity.
Defined.

(** An explicit chain strength of 2.5, and the default on the [int64] matrix
    [Q_small], whose greatest absolute value is 4. *)
Example explicit_chain_strength_run :
  trace (solve_qubo stub_world (Ndarray Q_small) (PyStr "QPU") (PyInt 4)
                    (PyFloat 2.5))
  = [print_solving Q_small 2 (PyStr "QPU");
     New_DWaveSampler; New_AutoEmbeddingComposite;
     Call_sample_qubo_chain Q_small (PyInt 4) (PyFloat 2.5);
     print_solved stub_world].
Proof. vm_compute. reflexivity. Qed.

Example default_chain_strength_Q_small :
  default_chain_strength Q_small = Returned 40.
Proof. reflexivity. Qed.

(** On an [int64] matrix with a large entry the product wraps around:
    [10 * 2^62] is [-2^63] in 64 bits. *)
Example default_chain_strength_wraps :
  default_chain_strength {| shape := [1%nat; 1%nat]; buf := Int64 [2 ^ 62] |}
  = Returned (- 2 ^ 63).
Proof. reflexivity. Qed.

(** C3, as stated, fails on [[0.25]]: ten times the greatest absolute value
    is 2.5, and the sampler is called with the chain strength 2. *)
Lemma default_chain_strength_truncated :
  Numpy.max (Numpy.abs Q_quarter) = Returned (F64 0.25) /\
  times10 (F64 0.25) = F64 2.5 /\
  trace (solve_qubo stub_world (Ndarray Q_quarter) (PyStr "QPU") (PyInt 10)
                    PyNone)
  = [print_solving Q_quarter 1 (PyStr "QPU");
     New_DWaveSampler; New_AutoEmbeddingComposite;
     Call_sample_qubo_chain Q_quarter (PyInt 10) (PyInt 2);
     print_solved stub_world] /\
  py_eq_scalar (PyInt 2) (F64 2.5) = false.
Proof. repeat split; vm_compute; reflexivity. Qed.

(** The product is rounded before [int] cuts it: the float nearest to 0.3 is
    below 0.3, ten times it rounds to 3.0, so the default is 3, although the
    integer part of the exact product is 2. *)
Example default_chain_strength_rounds_first :
  let f := 0x1.3333333333333p-2%float in
  default_chain_strength {| shape := [1%nat; 1%nat]; buf := Float64 [f] |}
  = Returned 3 /\
  Qtrunc (10 * value (F64 f)) = 2.
Proof. split; vm_compute; reflexivity. Qed.

(** ** Entries below the diagonal *)


(** With the defaults too, and whatever the sampler answers, the two runs
    part at the first line and at the matrix handed to the sampler. *)
Example below_diagonal_reaches_local_sampler (w : world) :
  firstn 3 (trace (solve_qubo_defaults w (Ndarray Q_below)))
  = [Print "Solving QUBO problem (%d vars, %d nz) on %s..."
           [PyInt 2; PyInt 4; PyStr "CPU"];
     New_SimulatedAnnealingSampler;
     Call_sample_qubo Q_below (PyInt 10)].
Proof.
  unfold solve_qubo_defaults.
  rewrite (solve_qubo_cpu_run w Q_below (PyInt 10) PyNone 2%nat [2%nat]
             eq_refl).
  destruct (sa_sample_qubo w Q_below (PyInt 10)); reflexivity.
Qed.

Lemma index_split (n p : nat) :
  (p < n * n)%nat ->
  exists i j, (i < n)%nat /\ (j < n)%nat /\ p = (i * n + j)%nat.
Proof.
  intro H.
  assert (Hn : n <> 0%nat) by (intro E; subst n; simpl in H; lia).
  exists (p / n)%nat, (p mod n)%nat. repeat split.
  - apply Nat.Div0.div_lt_upper_bound. lia.
  - apply Nat.mod_upper_bound. exact Hn.
  - rewrite (Nat.div_mod_eq p n) at 1. lia.
Qed.

Lemma upper_triangular_Q_small : upper_triangular Q_small.
Proof.
  exists 2%nat. split; [reflexivity|]. intros i j H.
  index_cases i j. left. reflexivity.
Qed.

(** * Further properties of [solve_qubo] *)

Lemma solve_qubo_invalid_sampler w Qo sampler k cs :
  py_in sampler ["CPU"; "QPU"] = false ->
  solve_qubo w Qo sampler k cs = (Raised AssertionError, []).
Proof.
  intro Hin. rewrite solve_qubo_unfold.
  destruct Qo as [Qm | v]; [|reflexivity].
  unfold assert_ndarray, ret. rewrite bind_Returned, Hin. reflexivity.
Qed.

Lemma solve_qubo_no_dimension w Qm sampler k cs :
  py_in sampler ["CPU"; "QPU"] = true -> shape Qm = [] ->
  solve_qubo w (Ndarray Qm) sampler k cs = (Raised IndexError, []).
Proof.
  intros Hin Hs. rewrite solve_qubo_unfold.
  unfold assert_ndarray, py_assert, ret. rewrite Hin, !bind_Returned.
  unfold shape0. rewrite Hs. reflexivity.
Qed.

(** The events of the sampler call, in each of its ways to end. *)
Lemma sampler_call_trace w Qm sampler k cs :
  let t := trace (sampler_call w Qm sampler k cs) in
  t = [New_SimulatedAnnealingSampler; Call_sample_qubo Qm k] \/
  t = [] \/
  t = [New_DWaveSampler] \/
  exists c, t = [New_DWaveSampler; New_AutoEmbeddingComposite;
                 Call_sample_qubo_chain Qm k c].
Proof.
  unfold sampler_call.
  destruct (py_eq_str sampler "CPU").
  - left. unfold emit, lift, bind. simpl. reflexivity.
  - right. unfold resolve_chain_strength, new_DWaveSampler.
    destruct cs; try destruct (default_chain_strength Qm);
      destruct (dwave_connect w);
      unfold emit, lift, ret, raise, bind, trace; simpl; eauto.
Qed.

Lemma filter_calls_sampler_call w Qm sampler k cs :
  (List.length (filter is_sampler_call
                       (trace (sampler_call w Qm sampler k cs))) <= 1)%nat.
Proof.
  destruct (sampler_call_trace w Qm sampler k cs)
    as [H | [H | [H | [c H]]]]; rewrite H; simpl; lia.
Qed.

(** X1: whatever its arguments and whatever the samplers answer,
    [solve_qubo] calls [sample_qubo] at most once: a failed attempt is never
    repeated. *)
Theorem solve_qubo_calls_sampler_at_most_once
    (w : world) (Qo : pyobj) (sampler k cs : pyval) :
  (List.length (filter is_sampler_call
                       (trace (solve_qubo w Qo sampler k cs))) <= 1)%nat.
Proof.
  destruct (py_in sampler ["CPU"; "QPU"]) eqn:Hin.
  2:{ rewrite (solve_qubo_invalid_sampler w Qo sampler k cs Hin).
      simpl. lia. }
  destruct Qo as [Qm | v]; [|simpl; lia].
  destruct (shape Qm) as [|n rest] eqn:Hs.
  { rewrite (solve_qubo_no_dimension w Qm sampler k cs Hin Hs). simpl. lia. }
  rewrite (solve_qubo_valid w Qm sampler k cs n rest Hin Hs).
  pose proof (filter_calls_sampler_call w Qm sampler k cs) as Hc.
  destruct (sampler_call w Qm sampler k cs) as [[r | e] t];
    unfold trace in *; cbn [snd] in *.
  - cbn [filter print_solving is_sampler_call].
    rewrite filter_app, length_app. simpl. lia.
  - cbn [filter print_solving is_sampler_call]. exact Hc.
Qed.

(** X2: [solve_qubo] returns a solution and an ensemble exactly when [Q] is
    a numpy array with a first dimension, the selector is supported, the
    sampler call answers that ensemble, and the ensemble is not empty; the
    solution is then the result of [min] on it. *)
Theorem solve_qubo_returns_iff
    (w : world) (Qo : pyobj) (sampler k cs : pyval)
    (sol : Sample) (r : SampleSet) :
  result (solve_qubo w Qo sampler k cs) = Returned (sol, r) <->
  exists Qm,
    Qo = Ndarray Qm /\
    py_in sampler ["CPU"; "QPU"] = true /\
    shape Qm <> [] /\
    result (sampler_call w Qm sampler k cs) = Returned r /\
    data r <> [] /\
    py_min energy (data r) = Returned sol.
Proof.
  split.
  - intro H.
    destruct (py_in sampler ["CPU"; "QPU"]) eqn:Hin.
    2:{ rewrite (solve_qubo_invalid_sampler w Qo sampler k cs Hin) in H.
        discriminate. }
    destruct Qo as [Qm | v]; [|discriminate].
    destruct (shape Qm) as [|n rest] eqn:Hs.
    { rewrite (solve_qubo_no_dimension w Qm sampler k cs Hin Hs) in H.
      discriminate. }
    rewrite (solve_qubo_valid w Qm sampler k cs n rest Hin Hs) in H.
    exists Qm. unfold result in *.
    destruct (sampler_call w Qm sampler k cs) as [[r' | e] t];
      cbn [fst] in *; [|discriminate].
    destruct (py_min energy (data r')) as [s | e] eqn:Hmin; [|discriminate].
    injection H as -> ->.
    repeat split; trivial; try congruence.
    intro E. rewrite E in Hmin. discriminate.
  - intros (Qm & -> & Hin & Hne & Hcall & _ & Hmin).
    destruct (shape Qm) as [|n rest] eqn:Hs; [congruence|].
    rewrite (solve_qubo_valid w Qm sampler k cs n rest Hin Hs).
    unfold result in *.
    destruct (sampler_call w Qm sampler k cs) as [[r' | e] t];
      cbn [fst] in *; [|discriminate].
    injection Hcall as ->. rewrite Hmin. reflexivity.
Qed.

(** X3: an exception of the sampler call (of the sampler, of the device, or
    of the chain strength computation) is raised by [solve_qubo] as it is,
    and the line "Solved in ..." is not printed. *)
Theorem sampler_exception_propagates
    (w : world) (Qm : ndarray) (sampler k cs : pyval) (e : exn) :
  py_in sampler ["CPU"; "QPU"] = true ->
  shape Qm <> [] ->
  result (sampler_call w Qm sampler k cs) = Raised e ->
  result (solve_qubo w (Ndarray Qm) sampler k cs) = Raised e /\
  trace (solve_qubo w (Ndarray Qm) sampler k cs)
  = print_solving Qm (Z.of_nat (hd 0%nat (shape Qm))) sampler
    :: trace (sampler_call w Qm sampler k cs).
Proof.
  intros Hin Hne Hcall.
  destruct (shape Qm) as [|n rest] eqn:Hs; [congruence|].
  rewrite (solve_qubo_valid w Qm sampler k cs n rest Hin Hs).
  unfold result, trace in *.
  destruct (sampler_call w Qm sampler k cs) as [[r | e'] t];
    cbn [fst snd] in *; [discriminate|].
  injection Hcall as ->. split; reflexivity.
Qed.

Lemma sampler_exception_propagates_witness :
  result (solve_qubo stub_world (Ndarray Q_2x3) (PyStr "CPU") (PyInt 10)
                     PyNone) = Raised ValueError /\
  trace (solve_qubo stub_world (Ndarray Q_2x3) (PyStr "CPU") (PyInt 10)
                    PyNone)
  = print_solving Q_2x3 (Z.of_nat (hd 0%nat (shape Q_2x3))) (PyStr "CPU")
    :: trace (sampler_call stub_world Q_2x3 (PyStr "CPU") (PyInt 10) PyNone).
Proof.
  apply (sampler_exception_propagates
           stub_world Q_2x3 (PyStr "CPU") (PyInt 10) PyNone ValueError).
  - reflexivity.
  - discriminate.
  - reflexivity.
Defined.

(** X4: when the sampler call answers an ensemble without entries,
    [solve_qubo] prints "Solved in ..." and then raises the [ValueError] of
    [min] on an empty sequence. *)
Theorem empty_ensemble_raises_after_solved
    (w : world) (Qm : ndarray) (sampler k cs : pyval) (r : SampleSet) :
  py_in sampler ["CPU"; "QPU"] = true ->
  shape Qm <> [] ->
  result (sampler_call w Qm sampler k cs) = Returned r ->
  data r = [] ->
  result (solve_qubo w (Ndarray Qm) sampler k cs) = Raised ValueError /\
  trace (solve_qubo w (Ndarray Qm) sampler k cs)
  = print_solving Qm (Z.of_nat (hd 0%nat (shape Qm))) sampler
    :: trace (sampler_call w Qm sampler k cs) ++ [print_solved w].
Proof.
  intros Hin Hne Hcall Hdata.
  destruct (shape Qm) as [|n rest] eqn:Hs; [congruence|].
  rewrite (solve_qubo_valid w Qm sampler k cs n rest Hin Hs).
  unfold result, trace in *.
  destruct (sampler_call w Qm sampler k cs) as [[r' | e'] t];
    cbn [fst snd] in *; [|discriminate].
  injection Hcall as ->. rewrite Hdata. split; reflexivity.
Qed.

Lemma empty_ensemble_raises_after_solved_witness :
  result (solve_qubo empty_world (Ndarray Q_small) (PyStr "CPU") (PyInt 10)
                     PyNone) = Raised ValueError /\
  trace (solve_qubo empty_world (Ndarray Q_small) (PyStr "CPU") (PyInt 10)
                    PyNone)
  = print_solving Q_small (Z.of_nat (hd 0%nat (shape Q_small))) (PyStr "CPU")
    :: trace (sampler_call empty_world Q_small (PyStr "CPU") (PyInt 10)
                           PyNone)
       ++ [print_solved empty_world].
Proof.
  apply (empty_ensemble_raises_after_solved
           empty_world Q_small (PyStr "CPU") (PyInt 10) PyNone
           {| data := [] |}); reflexivity || discriminate.
Defined.

(** X5: with the hardware backend, when the device cannot be reached the
    error of [DWaveSampler] is raised as it is: the composite is not
    constructed and [sample_qubo] is not called. *)
Theorem unreachable_device_stops_the_run
    (w : world) (Qm : ndarray) (k cs c : pyval) (e : exn) :
  shape Qm <> [] ->
  resolve_chain_strength Qm cs = (Returned c, []) ->
  dwave_connect w = Some e ->
  solve_qubo w (Ndarray Qm) (PyStr "QPU") k cs
  = (Raised e,
     [print_solving Qm (Z.of_nat (hd 0%nat (shape Qm))) (PyStr "QPU");
      New_DWaveSampler]).
Proof.
  intros Hne Hc Hd.
  destruct (shape Qm) as [|n rest] eqn:Hs; [congruence|].
  rewrite (solve_qubo_valid w Qm (PyStr "QPU") k cs n rest eq_refl Hs).
  unfold sampler_call. cbn [py_eq_str String.eqb Ascii.eqb Bool.eqb].
  rewrite Hc. unfold new_DWaveSampler. rewrite Hd. reflexivity.
Qed.

Lemma unreachable_device_stops_the_run_witness :
  solve_qubo offline_world (Ndarray Q_small) (PyStr "QPU") (PyInt 10) PyNone
  = (Raised (ExternalError "no solver available"),
     [print_solving Q_small (Z.of_nat (hd 0%nat (shape Q_small)))
                    (PyStr "QPU");
      New_DWaveSampler]).
Proof.
  apply (unreachable_device_stops_the_run
           offline_world Q_small (PyInt 10) PyNone (PyInt 40)
           (ExternalError "no solver available")).
  - discriminate.
  - reflexivity.
  - reflexivity.
Defined.

Lemma default_chain_strength_empty Qm :
  buf_length (buf Qm) = 0%nat ->
  default_chain_strength Qm = Raised ValueError.
Proof.
  unfold default_chain_strength, Numpy.max, Numpy.abs. cbn [buf].
  destruct (buf Qm) as [[|z l] | [|f l]]; simpl; intro H;
    try discriminate; reflexivity.
Qed.

(** The hardware branch when the default chain strength cannot be
    computed. *)
Lemma solve_qubo_qpu_default_raises w Qm k e n rest :
  shape Qm = n :: rest ->
  default_chain_strength Qm = Raised e ->
  solve_qubo w (Ndarray Qm) (PyStr "QPU") k PyNone
  = (Raised e, [print_solving Qm (Z.of_nat n) (PyStr "QPU")]).
Proof.
  intros Hs Hd.
  rewrite (solve_qubo_valid w Qm (PyStr "QPU") k PyNone n rest eq_refl Hs).
  unfold sampler_call. cbn [py_eq_str String.eqb Ascii.eqb Bool.eqb].
  unfold resolve_chain_strength, lift. rewrite Hd. reflexivity.
Qed.

(** X6: with the hardware backend and no chain strength given, a matrix
    without entries (a 0 x 0 matrix) makes [solve_qubo] raise the
    [ValueError] of [np.max] on an empty array after the first line, before
    any hardware object is constructed; with a chain strength given, the same
    matrix is handed to the sampler. *)
Theorem empty_matrix_on_hardware
    (w : world) (Qm : ndarray) (k : pyval) (n : nat) (rest : list nat) :
  shape Qm = n :: rest ->
  buf_length (buf Qm) = 0%nat ->
  solve_qubo w (Ndarray Qm) (PyStr "QPU") k PyNone
  = (Raised ValueError, [print_solving Qm (Z.of_nat n) (PyStr "QPU")]) /\
  forall c, c <> PyNone -> dwave_connect w = None ->
            passes_chain_strength w Qm k c c.
Proof.
  intros Hs Hb. split.
  - apply (solve_qubo_qpu_default_raises w Qm k ValueError n rest Hs).
    apply default_chain_strength_empty. exact Hb.
  - intros c Hc Hd.
    exact (passes_resolved w Qm k c c n rest Hs
             (resolve_chain_strength_given Qm c Hc) Hd).
Qed.

Lemma empty_matrix_on_hardware_witness :
  solve_qubo stub_world (Ndarray (zeros 0 0)) (PyStr "QPU") (PyInt 10) PyNone
  = (Raised ValueError,
     [print_solving (zeros 0 0) (Z.of_nat 0) (PyStr "QPU")]) /\
  forall c, c <> PyNone -> dwave_connect stub_world = None ->
            passes_chain_strength stub_world (zeros 0 0) (PyInt 10) c c.
Proof.
  apply (empty_matrix_on_hardware
           stub_world (zeros 0 0) (PyInt 10) 0%nat [0%nat]); reflexivity.
Defined.

(** ** A NaN among the entries *)

Lemma SFcompare_refl (x : spec_float) :
  x <> S754_nan -> SFcompare x x = Some Eq.
Proof.
  destruct x as [s | s | | s m e]; intro H; try congruence.
  - destruct s; reflexivity.
  - destruct s; reflexivity.
  - simpl. destruct s; rewrite Z.compare_refl, Pos.compare_cont_refl;
      reflexivity.
Qed.

Lemma is_nan_Prim2SF (f : float) :
  is_nan f = true <-> Prim2SF f = S754_nan.
Proof.
  unfold is_nan. rewrite FloatAxioms.eqb_spec. unfold SFeqb.
  split.
  - intro H. destruct (Prim2SF f) eqn:E; try reflexivity;
      rewrite SFcompare_refl in H by discriminate; discriminate.
  - intros ->. reflexivity.
Qed.

Lemma is_nan_abs (f : float) :
  is_nan f = true -> is_nan (PrimFloat.abs f) = true.
Proof.
  rewrite !is_nan_Prim2SF, FloatAxioms.abs_spec. intros ->. reflexivity.
Qed.

Lemma fmax_nan_l a b : is_nan a = true -> fmax a b = a.
Proof. unfold fmax. intros ->. reflexivity. Qed.

Lemma is_nan_fmax_r a b : is_nan b = true -> is_nan (fmax a b) = true.
Proof.
  unfold fmax. intro Hb. destruct (is_nan a) eqn:Ha; [exact Ha|].
  rewrite Hb. exact Hb.
Qed.

Lemma fold_fmax_nan_acc l a :
  is_nan a = true -> is_nan (fold_left fmax l a) = true.
Proof.
  revert a. induction l as [|b t IH]; intros a Ha; simpl; [exact Ha|].
  apply IH. rewrite fmax_nan_l; assumption.
Qed.

Lemma fold_fmax_nan l a :
  (is_nan a = true \/ exists f, In f l /\ is_nan f = true) ->
  is_nan (fold_left fmax l a) = true.
Proof.
  revert a. induction l as [|b t IH]; intros a H; simpl.
  - destruct H as [H | (f & [] & _)]. exact H.
  - apply IH. destruct H as [H | (f & [<- | Hin] & Hf)].
    + left. rewrite fmax_nan_l; assumption.
    + left. apply is_nan_fmax_r. exact Hf.
    + right. eauto.
Qed.

Lemma trunc_float_times10_nan (m : float) :
  is_nan m = true -> trunc_float (10 * m) = Raised ValueError.
Proof.
  intro H. apply is_nan_Prim2SF in H.
  unfold trunc_float. rewrite FloatAxioms.mul_spec, H. reflexivity.
Qed.

Lemma default_chain_strength_nan Qm l f :
  buf Qm = Float64 l -> In f l -> is_nan f = true ->
  default_chain_strength Qm = Raised ValueError.
Proof.
  intros Hb Hin Hf.
  unfold default_chain_strength, Numpy.max, Numpy.abs. cbn [buf].
  rewrite Hb. destruct l as [|a t]; [contradiction|]. cbn [map].
  unfold times10, to_int. apply trunc_float_times10_nan.
  apply fold_fmax_nan. destruct Hin as [<- | Hin].
  - left. apply is_nan_abs. exact Hf.
  - right. exists (PrimFloat.abs f). split; [apply in_map; exact Hin|].
    apply is_nan_abs. exact Hf.
Qed.

(** X7: with the hardware backend and no chain strength given, a [float64]
    matrix with a NaN among its entries makes [solve_qubo] raise the
    [ValueError] of [int(nan)] after the first line, before any hardware
    object is constructed. *)
Theorem nan_entry_on_hardware
    (w : world) (Qm : ndarray) (k : pyval) (n : nat) (rest : list nat)
    (l : list float) (f : float) :
  shape Qm = n :: rest ->
  buf Qm = Float64 l -> In f l -> is_nan f = true ->
  solve_qubo w (Ndarray Qm) (PyStr "QPU") k PyNone
  = (Raised ValueError, [print_solving Qm (Z.of_nat n) (PyStr "QPU")]).
Proof.
  intros Hs Hb Hin Hf.
  apply (solve_qubo_qpu_default_raises w Qm k ValueError n rest Hs).
  exact (default_chain_strength_nan Qm l f Hb Hin Hf).
Qed.

Lemma nan_entry_on_hardware_witness :
  let Qn := {| shape := [1%nat; 2%nat]; buf := Float64 [1%float; nan] |} in
  solve_qubo stub_world (Ndarray Qn) (PyStr "QPU") (PyInt 10) PyNone
  = (Raised ValueError, [print_solving Qn (Z.of_nat 1) (PyStr "QPU")]).
Proof.
  apply (nan_entry_on_hardware
           stub_world
           {| shape := [1%nat; 2%nat]; buf := Float64 [1%float; nan] |}
           (PyInt 10) 1%nat [2%nat] [1%float; nan] nan).
  - reflexivity.
  - reflexivity.
  - right. left. reflexivity.
  - reflexivity.
Defined.

(** ** The reduction and the order of the ensemble *)

Lemma py_min_first_minimum {A} (key : A -> Q) (l : list A) (m : A) :
  py_min key l = Returned m -> first_minimum key m l.
Proof.
  destruct l as [|x t]; [discriminate|]. simpl. intro H. injection H as <-.
  apply min_from_first_minimum.
Qed.

(** X8: the least energy does not depend on the order in which the ensemble
    lists its entries: on a reordered ensemble [min] returns an entry of the
    same energy (not always the same entry: ties go to the first). *)
Theorem least_energy_order_independent (l l' : list Sample) (m : Sample) :
  Permutation l l' ->
  py_min energy l = Returned m ->
  exists m', py_min energy l' = Returned m' /\ (energy m' == energy m)%Q.
Proof.
  intros Hp Hm.
  pose proof (py_min_first_minimum energy l m Hm) as Hf.
  assert (Hne : l' <> []).
  { intro E. subst l'. apply Permutation_sym, Permutation_nil in Hp.
    subst l. discriminate. }
  destruct (py_min_returns energy l' Hne) as (m' & Hm' & Hf').
  exists m'. split; [exact Hm'|].
  apply Qle_antisym.
  - apply (first_minimum_le energy m' l' Hf').
    apply (Permutation_in _ Hp). exact (first_minimum_In energy m l Hf).
  - apply (first_minimum_le energy m l Hf).
    apply (Permutation_in _ (Permutation_sym Hp)).
    exact (first_minimum_In energy m' l' Hf').
Qed.

Lemma least_energy_order_independent_witness :
  exists m', py_min energy (rev (data r_tie)) = Returned m' /\
             Qeq (energy m') (energy {| sample := [1; 1]; energy := -2 |}).
Proof.
  apply (least_energy_order_independent
           (data r_tie) (rev (data r_tie))
           {| sample := [1; 1]; energy := -2 |}).
  - apply Permutation_rev.
  - reflexivity.
Defined.

(** X9: when the first entry of the ensemble has the least energy (an
    ensemble listed by increasing energy, for one), the solution
    [solve_qubo] returns is that first entry. *)
Theorem sorted_ensemble_solution_is_head
    (w : world) (Qm : ndarray) (sampler k cs : pyval) (r : SampleSet)
    (x : Sample) (t : list Sample) :
  py_in sampler ["CPU"; "QPU"] = true ->
  shape Qm <> [] ->
  result (sampler_call w Qm sampler k cs) = Returned r ->
  data r = x :: t ->
  (forall e, In e t -> (energy x <= energy e)%Q) ->
  result (solve_qubo w (Ndarray Qm) sampler k cs) = Returned (x, r).
Proof.
  intros Hin Hne Hcall Hdata Hle.
  assert (Hd : data r <> []) by (rewrite Hdata; discriminate).
  destruct (solve_qubo_returns w Qm sampler k cs r Hin Hne Hcall Hd)
    as (sol & Hres & _ & Hfirst).
  rewrite Hres. do 2 f_equal.
  apply (first_minimum_unique energy sol x (data r) Hfirst).
  exists [], t. repeat split; [exact Hdata | intros y [] | exact Hle].
Qed.

Lemma sorted_ensemble_solution_is_head_witness :
  result (solve_qubo stub_world (Ndarray Q_small) (PyStr "CPU") (PyInt 2)
                     PyNone)
  = Returned ({| sample := [0; 0]; energy := qubo_objective Q_small [0; 0] |},
              {| data := stub_rows Q_small 2 |}).
Proof.
  apply (sorted_ensemble_solution_is_head
           stub_world Q_small (PyStr "CPU") (PyInt 2) PyNone
           {| data := stub_rows Q_small 2 |}
           {| sample := [0; 0]; energy := qubo_objective Q_small [0; 0] |}
           [{| sample := [1; 0]; energy := qubo_objective Q_small [1; 0] |}]).
  - reflexivity.
  - discriminate.
  - reflexivity.
  - reflexivity.
  - intros e [<- | []]. vm_compute. discriminate.
Defined.

(** * The number partitioning cells *)

(** ** Index assignment *)

Lemma length_update {A} (l : list A) p v :
  List.length (update l p v) = List.length l.
Proof.
  revert p. induction l as [|x t IH]; intros [|p]; simpl; auto.
Qed.

Lemma nth_update_same {A} (l : list A) p v d :
  (p < List.length l)%nat -> nth p (update l p v) d = v.
Proof.
  revert p. induction l as [|x t IH]; intros [|p] H; simpl in *;
    try lia; auto. apply IH. lia.
Qed.

Lemma nth_update_other {A} (l : list A) p q v d :
  p <> q -> nth p (update l q v) d = nth p l d.
Proof.
  revert p q. induction l as [|x t IH]; intros [|p] [|q] H; simpl;
    try reflexivity; try congruence.
  apply IH. congruence.
Qed.

(** A row and a column below [n] determine the position in the buffer. *)
Lemma position_injective (n i j i' j' : nat) :
  (j < n)%nat -> (j' < n)%nat ->
  (i * n + j = i' * n + j')%nat -> i = i' /\ j = j'.
Proof.
  intros Hj Hj' E.
  assert (Hi : i = i').
  { destruct (Nat.lt_trichotomy i i') as [H | [H | H]]; [|exact H|]; nia. }
  subst i'. split; [reflexivity | lia].
Qed.

Lemma position_bound (n i j : nat) :
  (i < n)%nat -> (j < n)%nat -> (i * n + j < n * n)%nat.
Proof. intros Hi Hj. nia. Qed.

Lemma getitem_nth (S : list Z) (i : nat) :
  (i < List.length S)%nat -> getitem S i = Returned (nth i S 0).
Proof.
  intro H. unfold getitem.
  rewrite (nth_error_nth' S 0 H). reflexivity.
Qed.

Lemma getitem_out (S : list Z) (i : nat) :
  (List.length S <= i)%nat -> getitem S i = Raised IndexError.
Proof.
  intro H. unfold getitem.
  apply nth_error_None in H. rewrite H. reflexivity.
Qed.

Lemma setitem_int_matrix n l i j v :
  (i < n)%nat -> (j < n)%nat ->
  setitem (int_matrix n l) i j v
  = Returned (int_matrix n (update l (i * n + j) v)).
Proof.
  intros Hi Hj. unfold setitem, int_matrix. cbn [shape buf].
  apply Nat.ltb_lt in Hi, Hj. rewrite Hi, Hj. reflexivity.
Qed.

(** ** The loops of the matrix cell *)

Lemma partition_entry_diag S i :
  partition_entry S i i
  = wrap64 (nth i S 0 * wrap64 (nth i S 0 - py_sum S)).
Proof. unfold partition_entry. rewrite Nat.eqb_refl. reflexivity. Qed.

Lemma partition_entry_right S i j :
  (i < j)%nat ->
  partition_entry S i j = wrap64 (wrap64 (2 * nth i S 0) * nth j S 0).
Proof.
  intro H. unfold partition_entry.
  destruct (Nat.eqb_spec i j); [lia|].
  apply Nat.ltb_lt in H. rewrite H. reflexivity.
Qed.

Lemma partition_entry_below S i j :
  (j < i)%nat -> partition_entry S i j = 0.
Proof.
  intro H. unfold partition_entry.
  destruct (Nat.eqb_spec i j); [lia|].
  destruct (Nat.ltb_spec i j); [lia|]. reflexivity.
Qed.

(** One pass of the inner loop. *)
Lemma inner_step (S : list Z) (n i j : nat) (l : list Z) :
  List.length S = n -> (i < j < n)%nat ->
  obind (getitem S i) (fun si' =>
  obind (getitem S j) (fun sj =>
  setitem (int_matrix n l) i j (wrap64 (wrap64 (2 * si') * sj))))
  = Returned (int_matrix n (update l (i * n + j) (partition_entry S i j))).
Proof.
  intros Hn Hj.
  rewrite (getitem_nth S i), (getitem_nth S j) by lia. cbn [obind].
  rewrite setitem_int_matrix by lia.
  rewrite <- (partition_entry_right S i j) by lia. reflexivity.
Qed.

(** The inner loop writes the entries right of the diagonal of row [i]. *)
Lemma inner_loop (S : list Z) (n i : nat) (js : list nat) (l : list Z) :
  List.length S = n ->
  (forall j, In j js -> (i < j < n)%nat) ->
  for_each js
    (fun j Qm2 =>
       obind (getitem S i) (fun si' =>
       obind (getitem S j) (fun sj =>
       setitem Qm2 i j (wrap64 (wrap64 (2 * si') * sj)))))
    (int_matrix n l)
  = Returned
      (int_matrix n
         (fold_left (fun l' j => update l' (i * n + j) (partition_entry S i j))
                    js l)).
Proof.
  intros Hn. revert l.
  induction js as [|j t IH]; intros l Hjs; [reflexivity|].
  assert (Hj : (i < j < n)%nat) by (apply Hjs; now left).
  cbn [for_each fold_left].
  rewrite (inner_step S n i j l Hn Hj).
  apply IH. intros j' Hj'. apply Hjs. now right.
Qed.

Lemma in_range lo hi j : In j (range lo hi) <-> (lo <= j < hi)%nat.
Proof. unfold range. rewrite in_seq. lia. Qed.

(** One pass of the outer loop. *)
Lemma outer_step (S : list Z) (n i : nat) (l : list Z) :
  List.length S = n -> (i < n)%nat ->
  obind (getitem S i) (fun si =>
  obind (setitem (int_matrix n l) i i (wrap64 (si * wrap64 (si - py_sum S))))
        (fun Qm1 =>
  for_each (range (i + 1) n)
    (fun j Qm2 =>
       obind (getitem S i) (fun si' =>
       obind (getitem S j) (fun sj =>
       setitem Qm2 i j (wrap64 (wrap64 (2 * si') * sj)))))
    Qm1))
  = Returned (int_matrix n (fill_row S n l i)).
Proof.
  intros Hn Hi.
  rewrite (getitem_nth S i) at 1 by lia. cbn [obind].
  rewrite setitem_int_matrix by lia. cbn [obind].
  rewrite <- (partition_entry_diag S i).
  apply (inner_loop S n i (range (i + 1) n)); [exact Hn|].
  intros j Hj. apply in_range in Hj. lia.
Qed.

(** The outer loop fills the rows it goes through. *)
Lemma outer_loop (S : list Z) (n : nat) (rows : list nat) (l : list Z) :
  List.length S = n ->
  (forall i, In i rows -> (i < n)%nat) ->
  for_each rows
    (fun i Qm =>
       obind (getitem S i) (fun si =>
       obind (setitem Qm i i (wrap64 (si * wrap64 (si - py_sum S))))
             (fun Qm1 =>
       for_each (range (i + 1) n)
         (fun j Qm2 =>
            obind (getitem S i) (fun si' =>
            obind (getitem S j) (fun sj =>
            setitem Qm2 i j (wrap64 (wrap64 (2 * si') * sj)))))
         Qm1)))
    (int_matrix n l)
  = Returned (int_matrix n (fold_left (fill_row S n) rows l)).
Proof.
  intros Hn. revert l.
  induction rows as [|i t IH]; intros l Hrows; [reflexivity|].
  assert (Hi : (i < n)%nat) by (apply Hrows; now left).
  cbn [for_each fold_left].
  rewrite (outer_step S n i l Hn Hi).
  apply IH. intros i' Hi'. apply Hrows. now right.
Qed.

Lemma partition_matrix_fold (S : list Z) :
  partition_matrix S
  = Returned (int_matrix (List.length S)
                (fold_left (fill_row S (List.length S))
                           (range 0 (List.length S))
                           (repeat 0 (List.length S * List.length S)))).
Proof.
  unfold partition_matrix.
  apply (outer_loop S (List.length S) (range 0 (List.length S))
                    (repeat 0 (List.length S * List.length S)) eq_refl).
  intros i Hi. apply in_range in Hi. lia.
Qed.

(** ** The buffer the loops leave *)

Lemma length_fold_update {A} (f : nat -> nat) (g : nat -> A) js (l : list A) :
  List.length (fold_left (fun l' j => update l' (f j) (g j)) js l)
  = List.length l.
Proof.
  revert l. induction js as [|j t IH]; intro l; simpl; [reflexivity|].
  rewrite IH. apply length_update.
Qed.

Lemma length_fill_row S n l i :
  List.length (fill_row S n l i) = List.length l.
Proof.
  unfold fill_row.
  rewrite (length_fold_update (fun j => (i * n + j)%nat)
                              (fun j => partition_entry S i j)).
  apply length_update.
Qed.

Lemma length_fill_rows S n rows l :
  List.length (fold_left (fill_row S n) rows l) = List.length l.
Proof.
  revert l. induction rows as [|i t IH]; intro l; simpl; [reflexivity|].
  rewrite IH. apply length_fill_row.
Qed.

(** After the columns [js] of row [i] are written, a position holds the
    value of its column if that column is among them, and is unchanged
    otherwise. *)
Lemma nth_fill_cols (g : nat -> Z) (n i : nat) js (l : list Z) (c : nat) :
  (i * n + c < List.length l)%nat ->
  nth (i * n + c)
      (fold_left (fun l' j => update l' (i * n + j) (g j)) js l) 0
  = if existsb (Nat.eqb c) js then g c else nth (i * n + c) l 0.
Proof.
  revert l. induction js as [|j t IH]; intros l Hlen; [reflexivity|].
  cbn [fold_left existsb].
  rewrite IH by (rewrite length_update; exact Hlen).
  destruct (existsb (Nat.eqb c) t) eqn:Et.
  - rewrite orb_true_r. reflexivity.
  - rewrite orb_false_r. destruct (Nat.eqb_spec c j) as [-> | Hne].
    + apply nth_update_same. exact Hlen.
    + apply nth_update_other. lia.
Qed.

Lemma nth_fill_cols_other_row (g : nat -> Z) (n i r c : nat) js (l : list Z) :
  r <> i -> (c < n)%nat -> (forall j, In j js -> (j < n)%nat) ->
  nth (r * n + c)
      (fold_left (fun l' j => update l' (i * n + j) (g j)) js l) 0
  = nth (r * n + c) l 0.
Proof.
  intros Hr Hc. revert l.
  induction js as [|j t IH]; intros l Hjs; [reflexivity|].
  cbn [fold_left]. rewrite IH by (intros j' Hj'; apply Hjs; now right).
  apply nth_update_other. intro E.
  assert (Hj : (j < n)%nat) by (apply Hjs; now left).
  destruct (position_injective n r c i j Hc Hj E). contradiction.
Qed.

Lemma existsb_range c lo hi :
  existsb (Nat.eqb c) (range lo hi) = (lo <=? c)%nat && (c <? hi)%nat.
Proof.
  destruct (existsb (Nat.eqb c) (range lo hi)) eqn:E.
  - apply existsb_exists in E. destruct E as (j & Hj & Hc).
    apply Nat.eqb_eq in Hc. subst j. apply in_range in Hj.
    symmetry. apply andb_true_iff. split;
      [apply Nat.leb_le | apply Nat.ltb_lt]; lia.
  - symmetry. apply andb_false_iff.
    destruct (Nat.leb_spec lo c); [|now left].
    destruct (Nat.ltb_spec c hi); [|now right].
    exfalso. assert (H' : existsb (Nat.eqb c) (range lo hi) = true).
    { apply existsb_exists. exists c. split;
        [apply in_range; lia | apply Nat.eqb_refl]. }
    congruence.
Qed.

(** Row [i] after its pass: the cell's entries on and right of the
    diagonal, the old content left of it; other rows are unchanged. *)
Lemma nth_fill_row S n l i r c :
  List.length l = (n * n)%nat ->
  (i < n)%nat -> (r < n)%nat -> (c < n)%nat ->
  nth (r * n + c) (fill_row S n l i) 0
  = if (r =? i)%nat && (i <=? c)%nat then partition_entry S i c
    else nth (r * n + c) l 0.
Proof.
  intros Hlen Hi Hr Hc. unfold fill_row.
  destruct (Nat.eqb_spec r i) as [-> | Hne]; cbn [andb].
  - rewrite nth_fill_cols
      by (rewrite length_update, Hlen; apply position_bound; assumption).
    rewrite existsb_range.
    destruct (Nat.leb_spec (i + 1) c) as [H1 | H1].
    + apply Nat.ltb_lt in Hc. rewrite Hc. cbn [andb].
      destruct (Nat.leb_spec i c); [reflexivity | lia].
    + cbn [andb]. destruct (Nat.eqb_spec c i) as [-> | Hci].
      * rewrite Nat.leb_refl. apply nth_update_same.
        rewrite Hlen. apply position_bound; assumption.
      * destruct (Nat.leb_spec i c); [lia|].
        apply nth_update_other. lia.
  - rewrite nth_fill_cols_other_row
      by (trivial; intros j Hj; apply in_range in Hj; lia).
    apply nth_update_other. intro E.
    destruct (position_injective n r c i i Hc Hi E). contradiction.
Qed.

Lemma nth_repeat_zero (p m : nat) : nth p (repeat 0 m) 0 = 0.
Proof.
  revert p. induction m as [|m IH]; intros [|p]; simpl; auto.
Qed.

(** After the passes for the rows below [m], those rows hold the cell's
    entries and the others are still zero. *)
Lemma nth_fill_rows S n m r c :
  (m <= n)%nat -> (r < n)%nat -> (c < n)%nat ->
  nth (r * n + c)
      (fold_left (fill_row S n) (range 0 m) (repeat 0 (n * n))) 0
  = if (r <? m)%nat then partition_entry S r c else 0.
Proof.
  intros Hm Hr Hc. induction m as [|m IH].
  - simpl. apply nth_repeat_zero.
  - unfold range in *. rewrite Nat.sub_0_r in *.
    rewrite seq_S, fold_left_app. cbn [fold_left Nat.add].
    rewrite nth_fill_row
      by (trivial; try lia; rewrite length_fill_rows; apply repeat_length).
    rewrite IH by lia.
    destruct (Nat.eqb_spec r m) as [-> | Hne]; cbn [andb].
    + destruct (Nat.ltb_spec m (Datatypes.S m)); [|lia].
      destruct (Nat.leb_spec m c); [reflexivity|].
      destruct (Nat.ltb_spec m m); [lia|].
      symmetry. apply partition_entry_below. lia.
    + destruct (Nat.ltb_spec r m), (Nat.ltb_spec r (Datatypes.S m));
        try lia; reflexivity.
Qed.

(** ** The matrix of an instance *)

(** X10: for every list of numbers [S], the matrix cell ends without an
    [IndexError] and leaves a [len(S)] x [len(S)] [int64] matrix whose entry
    at row [i], column [j] is [S[i] * (S[i] - c)] on the diagonal,
    [2 * S[i] * S[j]] right of it and 0 left of it, each product as 64-bit
    arithmetic gives it. *)
Theorem partition_matrix_entries (S : list Z) :
  exists l,
    partition_matrix S = Returned (int_matrix (List.length S) l) /\
    List.length l = (List.length S * List.length S)%nat /\
    forall i j, (i < List.length S)%nat -> (j < List.length S)%nat ->
                nth (i * List.length S + j) l 0 = partition_entry S i j.
Proof.
  eexists. split; [apply partition_matrix_fold|]. split.
  - rewrite length_fill_rows. apply repeat_length.
  - intros i j Hi Hj.
    rewrite (nth_fill_rows S (List.length S) (List.length S) i j)
      by (trivial; lia).
    apply Nat.ltb_lt in Hi. rewrite Hi. reflexivity.
Qed.

Lemma wrap64_range z : - 2 ^ 63 <= wrap64 z < 2 ^ 63.
Proof.
  unfold wrap64.
  pose proof (Z.mod_pos_bound (z + 2 ^ 63) (2 ^ 64) eq_refl) as H.
  change (2 ^ 64) with (2 * 2 ^ 63) in *. lia.
Qed.

Lemma partition_entry_range S i j :
  int64_rangeb (partition_entry S i j) = true.
Proof.
  unfold int64_rangeb. apply andb_true_iff.
  rewrite Z.leb_le, Z.ltb_lt. unfold partition_entry.
  destruct (i =? j)%nat; [apply wrap64_range|].
  destruct (i <? j)%nat; [apply wrap64_range|].
  lia.
Qed.

(** X11: the matrix the cell builds is what the docstring of [solve_qubo]
    asks for: square, with zero everywhere below the diagonal, and made of
    [int64] values. *)
Theorem partition_matrix_upper_triangular (S : list Z) :
  exists Qm,
    partition_matrix S = Returned Qm /\
    shape Qm = [List.length S; List.length S] /\
    square Qm /\ upper_triangular Qm /\ wf Qm = true.
Proof.
  set (n := List.length S).
  set (l := fold_left (fill_row S n) (range 0 n) (repeat 0 (n * n))).
  assert (Hlen : List.length l = (n * n)%nat)
    by (subst l; rewrite length_fill_rows; apply repeat_length).
  assert (Hnth : forall i j, (i < n)%nat -> (j < n)%nat ->
                             nth (i * n + j) l 0 = partition_entry S i j).
  { intros i j Hi Hj. subst l.
    rewrite (nth_fill_rows S n n i j) by (trivial; lia).
    apply Nat.ltb_lt in Hi. rewrite Hi. reflexivity. }
  exists (int_matrix n l). repeat split.
  - rewrite partition_matrix_fold. reflexivity.
  - exists n. reflexivity.
  - exists n. split; [reflexivity|]. intros i j Hij. left.
    unfold entry, int_matrix. cbn [buf]. f_equal.
    rewrite Hnth by lia. apply partition_entry_below. lia.
  - unfold wf, int_matrix, size. cbn [buf shape buf_length fold_right].
    rewrite Hlen, Nat.mul_1_r, Nat.eqb_refl. cbn [andb].
    apply forallb_forall. intros z Hz.
    destruct (In_nth l z 0 Hz) as (p & Hp & <-).
    rewrite Hlen in Hp.
    destruct (index_split n p Hp) as (i & j & Hi & Hj & ->).
    rewrite Hnth by assumption. apply partition_entry_range.
Qed.

(** ** Instances without overflow *)

Lemma Zsum_nonneg (l : list Z) : Forall (fun s => 0 < s) l -> 0 <= Zsum l.
Proof. induction 1 as [|s t Hs _ IH]; simpl; lia. Qed.

Lemma py_sum_from (l : list Z) (a : Z) :
  Forall (fun s => 0 < s) l -> 0 <= a -> a + Zsum l < 2 ^ 63 ->
  fold_left (fun acc s => wrap64 (acc + s)) l a = a + Zsum l.
Proof.
  intros Hpos. revert a.
  induction Hpos as [|s t Hs Ht IH]; intros a Ha Hb; simpl in *; [lia|].
  pose proof (Zsum_nonneg t Ht) as Hn.
  rewrite wrap64_small by lia. rewrite IH by lia. lia.
Qed.

Lemma Zsum_le_square_bound (c : Z) :
  0 <= c -> 2 * (c * c) < 2 ^ 63 -> c < 2 ^ 63.
Proof. intros H0 H. nia. Qed.

Lemma py_sum_small (S : list Z) : small_instance S -> py_sum S = Zsum S.
Proof.
  intros [Hpos Hb]. unfold py_sum.
  pose proof (Zsum_nonneg S Hpos) as H0.
  pose proof (Zsum_le_square_bound (Zsum S) H0 Hb) as H1.
  rewrite py_sum_from; trivial; lia.
Qed.

Lemma nth_le_Zsum (S : list Z) (i : nat) :
  Forall (fun s => 0 < s) S -> (i < List.length S)%nat ->
  0 < nth i S 0 <= Zsum S.
Proof.
  intros Hpos. revert i.
  induction Hpos as [|s t Hs Ht IH]; intros i Hi; simpl in *; [lia|].
  pose proof (Zsum_nonneg t Ht). destruct i as [|i]; [lia|].
  specialize (IH i ltac:(lia)). lia.
Qed.

(** Two distinct positions together do not exceed the sum. *)
Lemma nth_pair_le_Zsum (S : list Z) (i j : nat) :
  Forall (fun s => 0 < s) S -> (i < j < List.length S)%nat ->
  nth i S 0 + nth j S 0 <= Zsum S.
Proof.
  intros Hpos. revert i j.
  induction Hpos as [|s t Hs Ht IH]; intros i j Hij; simpl in *; [lia|].
  destruct j as [|j]; [lia|]. destruct i as [|i].
  - pose proof (nth_le_Zsum t j Ht ltac:(lia)). lia.
  - specialize (IH i j ltac:(lia)). lia.
Qed.

(** X12: on an instance of positive numbers whose sum [c] satisfies
    [2 * c * c < 2^63] (the notebook's thirty numbers up to 10 are far
    below), no product of the cell wraps around: the matrix holds exactly
    [s_i * (s_i - c)] on the diagonal and [2 * s_i * s_j] right of it. *)
Theorem partition_entry_exact (S : list Z) (i j : nat) :
  small_instance S ->
  (i < List.length S)%nat -> (j < List.length S)%nat ->
  partition_entry S i j
  = if (i =? j)%nat then nth i S 0 * (nth i S 0 - Zsum S)
    else if (i <? j)%nat then 2 * nth i S 0 * nth j S 0
    else 0.
Proof.
  intros Hsmall Hi Hj. unfold partition_entry.
  rewrite (py_sum_small S Hsmall). destruct Hsmall as [Hpos Hb].
  pose proof (nth_le_Zsum S i Hpos Hi) as Bi.
  pose proof (nth_le_Zsum S j Hpos Hj) as Bj.
  set (c := Zsum S) in *. set (si := nth i S 0) in *.
  set (sj := nth j S 0) in *.
  destruct (i =? j)%nat.
  - rewrite (wrap64_small (si - c)) by nia.
    rewrite wrap64_small by nia. reflexivity.
  - destruct (i <? j)%nat; [|reflexivity].
    rewrite (wrap64_small (2 * si)) by nia.
    rewrite wrap64_small by nia. reflexivity.
Qed.

Lemma small_instance_S_six : small_instance S_six.
Proof.
  split; [repeat constructor | reflexivity].
Qed.

Lemma partition_entry_exact_witness :
  partition_entry S_six 0 3
  = if (0 =? 3)%nat then nth 0 S_six 0 * (nth 0 S_six 0 - Zsum S_six)
    else if (0 <? 3)%nat then 2 * nth 0 S_six 0 * nth 3 S_six 0
    else 0.
Proof.
  apply (partition_entry_exact S_six 0 3).
  - exact small_instance_S_six.
  - simpl. lia.
  - simpl. lia.
Defined.

(** With larger numbers the products do wrap: for [S = [2^32, 2^32]] the
    diagonal product is [- 2^64] and the one right of it [2^65], and the
    matrix stored is all zeros. *)
Example partition_entry_wraps :
  partition_matrix [2 ^ 32; 2 ^ 32] = Returned (int_matrix 2 [0; 0; 0; 0]).
Proof. vm_compute. reflexivity. Qed.

(** ** The number of non-zero entries *)

Lemma length_filter_map {A B} (f : B -> bool) (g : A -> B) (l : list A) :
  List.length (filter f (map g l))
  = List.length (filter (fun x => f (g x)) l).
Proof.
  induction l as [|x t IH]; simpl; [reflexivity|].
  destruct (f (g x)); simpl; rewrite IH; reflexivity.
Qed.

Lemma length_filter_ext_in {A} (f g : A -> bool) (l : list A) :
  (forall x, In x l -> f x = g x) ->
  List.length (filter f l) = List.length (filter g l).
Proof.
  intro H. rewrite (filter_ext_in f g l H). reflexivity.
Qed.

(** Counting the entries of a list that pass a test is counting the
    positions whose entry passes. *)
Lemma length_filter_positions {A} (f : A -> bool) (d : A) (l : list A) :
  List.length (filter f l)
  = List.length (filter (fun p => f (nth p l d)) (seq 0 (List.length l))).
Proof.
  induction l as [|x t IH]; [reflexivity|].
  cbn [List.length seq]. rewrite <- seq_shift.
  cbn [filter nth].
  destruct (f x); cbn [List.length]; rewrite length_filter_map;
    cbv beta; cbn [nth]; rewrite <- IH; reflexivity.
Qed.

Lemma length_filter_false {A} (f : A -> bool) (l : list A) :
  (forall x, In x l -> f x = false) -> List.length (filter f l) = 0%nat.
Proof.
  induction l as [|x t IH]; intro H; simpl; [reflexivity|].
  rewrite (H x) by now left. apply IH. intros y Hy. apply H. now right.
Qed.

Lemma length_filter_true {A} (f : A -> bool) (l : list A) :
  (forall x, In x l -> f x = true) ->
  List.length (filter f l) = List.length l.
Proof.
  induction l as [|x t IH]; intro H; simpl; [reflexivity|].
  rewrite (H x) by now left. simpl. f_equal.
  apply IH. intros y Hy. apply H. now right.
Qed.

(** In row [m] of an [n] x [n] grid, [n - m] positions lie on or right of
    the diagonal. *)
Lemma row_count (n m : nat) :
  (m <= n)%nat ->
  List.length (filter (fun p => (p / n <=? p mod n)%nat) (seq (m * n) n))
  = (n - m)%nat.
Proof.
  intro Hm.
  destruct (Nat.eq_dec n 0) as [-> | Hn]; [reflexivity|].
  assert (E : seq (m * n) n = seq (m * n) m ++ seq (m * n + m) (n - m))
    by (rewrite <- seq_app; f_equal; lia).
  rewrite E, filter_app, length_app.
  rewrite length_filter_false, length_filter_true, length_seq; [lia | |].
  - intros p Hp. apply in_seq in Hp. apply Nat.leb_le.
    assert (Hd : (p / n = m)%nat).
    { symmetry. apply (Nat.div_unique p n m (p - m * n)); lia. }
    assert (Hr : (p mod n = p - m * n)%nat).
    { symmetry. apply (Nat.mod_unique p n m (p - m * n)); lia. }
    lia.
  - intros p Hp. apply in_seq in Hp. apply Nat.leb_gt.
    assert (Hd : (p / n = m)%nat).
    { symmetry. apply (Nat.div_unique p n m (p - m * n)); lia. }
    assert (Hr : (p mod n = p - m * n)%nat).
    { symmetry. apply (Nat.mod_unique p n m (p - m * n)); lia. }
    lia.
Qed.

(** In the first [m] rows, twice that count is [m * (2 n - m + 1)]. *)
Lemma rows_count (n m : nat) :
  (m <= n)%nat ->
  (2 * List.length (filter (fun p => (p / n <=? p mod n)%nat)
                           (seq 0 (m * n)))
   + m * m = m * (2 * n + 1))%nat.
Proof.
  induction m as [|m IH]; intro Hm; [reflexivity|].
  replace (Datatypes.S m * n)%nat with (m * n + n)%nat by lia.
  rewrite seq_app, filter_app, length_app. cbn [Nat.add].
  rewrite row_count by lia. specialize (IH ltac:(lia)). nia.
Qed.

Lemma some_other_index (S : list Z) (i : nat) :
  Forall (fun s => 0 < s) S ->
  (2 <= List.length S)%nat -> (i < List.length S)%nat ->
  nth i S 0 < Zsum S.
Proof.
  intros Hpos Hn Hi. destruct i as [|i].
  - pose proof (nth_pair_le_Zsum S 0 1 Hpos ltac:(lia)).
    pose proof (nth_le_Zsum S 1 Hpos ltac:(lia)). lia.
  - pose proof (nth_pair_le_Zsum S 0 (Datatypes.S i) Hpos ltac:(lia)).
    pose proof (nth_le_Zsum S 0 Hpos ltac:(lia)). lia.
Qed.

(** On an instance without overflow of at least two numbers, an entry is
    not zero exactly on and right of the diagonal. *)
Lemma partition_entry_nonzero (S : list Z) (i j : nat) :
  small_instance S -> (2 <= List.length S)%nat ->
  (i < List.length S)%nat -> (j < List.length S)%nat ->
  negb (partition_entry S i j =? 0) = (i <=? j)%nat.
Proof.
  intros Hsmall Hn Hi Hj.
  rewrite (partition_entry_exact S i j Hsmall Hi Hj).
  destruct Hsmall as [Hpos Hb].
  pose proof (nth_le_Zsum S i Hpos Hi) as Bi.
  pose proof (nth_le_Zsum S j Hpos Hj) as Bj.
  pose proof (some_other_index S i Hpos Hn Hi) as Ci.
  destruct (Nat.eqb_spec i j) as [-> | Hne].
  - rewrite Nat.leb_refl. apply negb_true_iff, Z.eqb_neq. nia.
  - destruct (Nat.ltb_spec i j) as [Hlt | Hge].
    + destruct (Nat.leb_spec i j); [|lia].
      apply negb_true_iff, Z.eqb_neq. nia.
    + destruct (Nat.leb_spec i j); [lia|]. reflexivity.
Qed.

(** X13: on an instance of at least two positive numbers without overflow,
    the matrix has exactly [n (n + 1) / 2] non-zero entries, the diagonal and
    all that lies right of it: the count [solve_qubo] prints (465 for the
    notebook's thirty numbers). *)
Theorem partition_matrix_nonzeros (S : list Z) :
  small_instance S -> (2 <= List.length S)%nat ->
  exists Qm,
    partition_matrix S = Returned Qm /\
    2 * count_nonzero Qm
    = Z.of_nat (List.length S) * (Z.of_nat (List.length S) + 1).
Proof.
  intros Hsmall Hn.
  destruct (partition_matrix_entries S) as (l & Hret & Hlen & Hnth).
  set (n := List.length S) in *.
  exists (int_matrix n l). split; [exact Hret|].
  unfold count_nonzero, int_matrix. cbn [buf].
  rewrite (length_filter_positions _ 0 l), Hlen.
  rewrite (length_filter_ext_in _ (fun p => (p / n <=? p mod n)%nat)).
  - pose proof (rows_count n n (Nat.le_refl n)) as Hc. nia.
  - intros p Hp. apply in_seq in Hp.
    assert (Hn0 : n <> 0%nat) by lia.
    assert (Hi : (p / n < n)%nat)
      by (apply Nat.Div0.div_lt_upper_bound; lia).
    assert (Hj : (p mod n < n)%nat) by (apply Nat.mod_upper_bound; exact Hn0).
    assert (Ep : p = (p / n * n + p mod n)%nat)
      by (rewrite (Nat.div_mod_eq p n) at 1; lia).
    rewrite Ep at 1. rewrite (Hnth _ _ Hi Hj).
    apply partition_entry_nonzero; assumption.
Qed.

Lemma partition_matrix_nonzeros_witness :
  exists Qm,
    partition_matrix S_six = Returned Qm /\
    2 * count_nonzero Qm
    = Z.of_nat (List.length S_six) * (Z.of_nat (List.length S_six) + 1).
Proof.
  apply (partition_matrix_nonzeros S_six).
  - exact small_instance_S_six.
  - simpl. lia.
Defined.

(** ** Displaying the two sides *)

Lemma select_from_shift (S : list Z) (s : Z) keep (i : nat) (x : list Z) :
  select_from (s :: S) keep (Datatypes.S i) x = select_from S keep i x.
Proof.
  revert i. induction x as [|xi t IH]; intro i; [reflexivity|].
  cbn [select_from]. change (Datatypes.S i + 1)%nat with (Datatypes.S (i + 1)).
  rewrite IH. reflexivity.
Qed.

(** While the sample has no more variables than [S] has numbers, a
    comprehension gives the numbers of the variables kept. *)
Lemma select_from_picked (S : list Z) keep (x : list Z) :
  (List.length x <= List.length S)%nat ->
  select_from S keep 0 x = Returned (picked keep S x).
Proof.
  revert S. induction x as [|xi t IH]; intros S Hlen.
  - destruct S; reflexivity.
  - destruct S as [|s S']; simpl in Hlen; [lia|].
    cbn [select_from picked Nat.add].
    rewrite select_from_shift, IH by lia.
    destruct (keep xi); reflexivity.
Qed.

(** A comprehension that keeps a variable for which [S] has no number
    raises. *)
Lemma select_from_raises (S : list Z) keep (x : list Z) (i p : nat) :
  (List.length S <= i + p)%nat -> (p < List.length x)%nat ->
  keep (nth p x 0) = true ->
  select_from S keep i x = Raised IndexError.
Proof.
  revert i p. induction x as [|xi t IH]; intros i p Hs Hp Hk;
    simpl in Hp; [lia|].
  cbn [select_from]. destruct p as [|p].
  - simpl in Hk. rewrite Hk, getitem_out by lia. reflexivity.
  - simpl in Hk.
    assert (Ht : select_from S keep (i + 1) t = Raised IndexError)
      by (apply (IH (i + 1)%nat p); trivial; lia).
    rewrite Ht. destruct (keep xi); [|reflexivity].
    unfold getitem. destruct (nth_error S i); reflexivity.
Qed.

Lemma select_from_raises_only (S : list Z) keep (x : list Z) (i : nat) e :
  select_from S keep i x = Raised e -> e = IndexError.
Proof.
  revert i. induction x as [|xi t IH]; intro i; [discriminate|].
  cbn [select_from]. destruct (keep xi); [|apply IH].
  unfold getitem. destruct (nth_error S i); cbn [obind].
  - destruct (select_from S keep (i + 1) t) eqn:E; cbn [obind];
      [discriminate|]. intro H. injection H as <-. exact (IH _ E).
  - intro H. injection H as <-. reflexivity.
Qed.

Lemma at_most_half_negb (xi : Z) : at_most_half xi = negb (above_half xi).
Proof.
  unfold at_most_half, above_half.
  destruct (Z.leb_spec (2 * xi) 1), (Z.ltb_spec 1 (2 * xi));
    try reflexivity; lia.
Qed.

(** Every number whose variable is in the sample goes to exactly one
    side. *)
Lemma picked_split (S x : list Z) :
  (List.length x <= List.length S)%nat ->
  Permutation (picked above_half S x ++ picked at_most_half S x)
              (firstn (List.length x) S).
Proof.
  revert S. induction x as [|xi t IH]; intros S Hlen.
  - destruct S; constructor.
  - destruct S as [|s S']; simpl in Hlen; [lia|].
    cbn [picked List.length firstn]. rewrite at_most_half_negb.
    specialize (IH S' ltac:(lia)).
    destruct (above_half xi); cbn [negb app].
    + constructor. exact IH.
    + apply Permutation_sym, Permutation_cons_app, Permutation_sym. exact IH.
Qed.

Lemma Zsum_app (l l' : list Z) : Zsum (l ++ l') = Zsum l + Zsum l'.
Proof. induction l as [|a t IH]; simpl; [reflexivity | rewrite IH; lia]. Qed.

Lemma Zsum_Permutation (l l' : list Z) :
  Permutation l l' -> Zsum l = Zsum l'.
Proof. induction 1; simpl; lia. Qed.

(** X14: when the sample has no more variables than there are numbers, the
    display lines end normally and print the sums of two lists that
    together are, up to order, the numbers whose variable is in the sample:
    each of them is on exactly one side, and a number whose variable the
    sample lacks is on neither. *)
Theorem display_solution_splits (S : list Z) (solution : Sample) :
  (List.length (sample solution) <= List.length S)%nat ->
  exists S0 S1,
    display_solution S solution
    = (Returned tt,
       [Print "sum(S0) %8d" [PyInt (py_sum S0)];
        Print "sum(S1) %8d" [PyInt (py_sum S1)]]) /\
    Permutation (S0 ++ S1) (firstn (List.length (sample solution)) S).
Proof.
  intro Hlen.
  exists (picked above_half S (sample solution)),
         (picked at_most_half S (sample solution)).
  split; [|apply picked_split; exact Hlen].
  unfold display_solution.
  rewrite !select_from_picked by exact Hlen. reflexivity.
Qed.

Lemma display_solution_splits_witness :
  exists S0 S1,
    display_solution S_six {| sample := [1; 0; 0; 0; 1; 0]; energy := -25 |}
    = (Returned tt,
       [Print "sum(S0) %8d" [PyInt (py_sum S0)];
        Print "sum(S1) %8d" [PyInt (py_sum S1)]]) /\
    Permutation (S0 ++ S1)
      (firstn (List.length
                 (sample {| sample := [1; 0; 0; 0; 1; 0]; energy := -25 |}))
              S_six).
Proof.
  apply (display_solution_splits
           S_six {| sample := [1; 0; 0; 0; 1; 0]; energy := -25 |}).
  simpl. lia.
Defined.

(** X15: when the sample has a variable beyond the numbers of [S], the
    display lines raise [IndexError] and print nothing: that variable is
    looked up by one of the two comprehensions. *)
Theorem display_solution_index_error (S : list Z) (solution : Sample) :
  (List.length S < List.length (sample solution))%nat ->
  display_solution S solution = (Raised IndexError, []).
Proof.
  intro Hlen. unfold display_solution.
  set (x := sample solution) in *. set (p := List.length S).
  destruct (above_half (nth p x 0)) eqn:Ha.
  - rewrite (select_from_raises S above_half x 0 p) by (trivial; lia).
    reflexivity.
  - assert (Hb : at_most_half (nth p x 0) = true)
      by (rewrite at_most_half_negb, Ha; reflexivity).
    rewrite (select_from_raises S at_most_half x 0 p) by (trivial; lia).
    destruct (select_from S above_half 0 x) as [S0 | e] eqn:E;
      [reflexivity|].
    rewrite (select_from_raises_only S above_half x 0 e E). reflexivity.
Qed.

Lemma display_solution_index_error_witness :
  display_solution [3; 1] {| sample := [1; 0; 1]; energy := 0 |}
  = (Raised IndexError, []).
Proof.
  apply (display_solution_index_error
           [3; 1] {| sample := [1; 0; 1]; energy := 0 |}).
  simpl. lia.
Defined.

Lemma py_sum_Zsum (l : list Z) :
  Forall (fun s => 0 < s) l -> Zsum l < 2 ^ 63 -> py_sum l = Zsum l.
Proof.
  intros Hpos Hb. unfold py_sum.
  rewrite py_sum_from; trivial; lia.
Qed.

(** X16: on positive numbers whose sum fits 64 bits, for a sample with one
    variable per number, the two sums the display lines print add up to the
    sum of all the numbers. *)
Theorem display_sums_add_up (S : list Z) (solution : Sample) :
  Forall (fun s => 0 < s) S -> Zsum S < 2 ^ 63 ->
  List.length (sample solution) = List.length S ->
  exists a b,
    display_solution S solution
    = (Returned tt,
       [Print "sum(S0) %8d" [PyInt a]; Print "sum(S1) %8d" [PyInt b]]) /\
    0 <= a /\ 0 <= b /\ a + b = py_sum S.
Proof.
  intros Hpos Hb Hlen.
  set (x := sample solution) in *.
  pose proof (picked_split S x ltac:(lia)) as Hp.
  rewrite Hlen, firstn_all in Hp.
  pose proof (Permutation_Forall (Permutation_sym Hp) Hpos) as Hf.
  apply Forall_app in Hf. destruct Hf as [H0 H1].
  pose proof (Zsum_Permutation _ _ Hp) as Hs. rewrite Zsum_app in Hs.
  pose proof (Zsum_nonneg _ H0). pose proof (Zsum_nonneg _ H1).
  exists (Zsum (picked above_half S x)), (Zsum (picked at_most_half S x)).
  repeat split; try lia.
  - unfold display_solution. fold x.
    rewrite !select_from_picked by lia.
    rewrite <- (py_sum_Zsum (picked above_half S x)) by (trivial; lia).
    rewrite <- (py_sum_Zsum (picked at_most_half S x)) by (trivial; lia).
    reflexivity.
  - rewrite py_sum_Zsum by trivial. exact Hs.
Qed.

Lemma display_sums_add_up_witness :
  exists a b,
    display_solution S_six {| sample := [1; 0; 0; 0; 1; 0]; energy := -25 |}
    = (Returned tt,
       [Print "sum(S0) %8d" [PyInt a]; Print "sum(S1) %8d" [PyInt b]]) /\
    0 <= a /\ 0 <= b /\ a + b = py_sum S_six.
Proof.
  apply (display_sums_add_up
           S_six {| sample := [1; 0; 0; 0; 1; 0]; energy := -25 |}).
  - repeat constructor.
  - reflexivity.
  - reflexivity.
Defined.

(** ** The objective on the matrix of an instance *)

Lemma Zsum_map_ext_in {A} (f g : A -> Z) (l : list A) :
  (forall i, In i l -> f i = g i) -> Zsum (map f l) = Zsum (map g l).
Proof.
  intro H. rewrite (map_ext_in f g l H). reflexivity.
Qed.

Lemma Zsum_map_add {A} (f g : A -> Z) (l : list A) :
  Zsum (map (fun i => f i + g i) l) = Zsum (map f l) + Zsum (map g l).
Proof. induction l as [|a t IH]; simpl; [reflexivity | rewrite IH; lia]. Qed.

Lemma Zsum_map_scale {A} (k : Z) (f : A -> Z) (l : list A) :
  Zsum (map (fun i => k * f i) l) = k * Zsum (map f l).
Proof. induction l as [|a t IH]; simpl; [lia | rewrite IH; lia]. Qed.

Lemma Zsum_cons (a : Z) (l : list Z) : Zsum (a :: l) = a + Zsum l.
Proof. reflexivity. Qed.

Lemma Zsum_nil : Zsum [] = 0.
Proof. reflexivity. Qed.

(** The square of a sum: the squares and twice the products of the pairs. *)
Lemma square_of_sum (a : nat -> Z) (n : nat) :
  Zsum (map (fun i =>
               a i * a i
               + Zsum (map (fun j => 2 * a i * a j) (range (i + 1) n)))
            (seq 0 n))
  = Zsum (map a (seq 0 n)) * Zsum (map a (seq 0 n)).
Proof.
  induction n as [|n IH]; [reflexivity|].
  rewrite !seq_S, !map_app, !Zsum_app. cbn [Nat.add map].
  assert (Hlast : range (n + 1) (Datatypes.S n) = [])
    by (unfold range; replace (Datatypes.S n - (n + 1))%nat with 0%nat by lia;
        reflexivity).
  rewrite Hlast. cbn [map]. rewrite !Zsum_cons, !Zsum_nil.
  rewrite (Zsum_map_ext_in _
             (fun i => (a i * a i
                        + Zsum (map (fun j => 2 * a i * a j)
                                    (range (i + 1) n)))
                       + (2 * a n) * a i)).
  - rewrite Zsum_map_add, Zsum_map_scale, IH. ring.
  - intros i Hi. apply in_seq in Hi.
    assert (Hr : range (i + 1) (Datatypes.S n) = range (i + 1) n ++ [n]).
    { unfold range.
      replace (Datatypes.S n - (i + 1))%nat
        with (Datatypes.S (n - (i + 1))) by lia.
      rewrite seq_S. do 2 f_equal. lia. }
    rewrite Hr, map_app, Zsum_app. cbn [map].
    rewrite Zsum_cons, Zsum_nil. ring.
Qed.

Lemma Qsum_map_ext_in {A} (f g : A -> Q) (l : list A) :
  (forall i, In i l -> (f i == g i)%Q) ->
  (Qsum (map f l) == Qsum (map g l))%Q.
Proof.
  induction l as [|a t IH]; intro H; simpl; [reflexivity|].
  rewrite (H a) by now left.
  rewrite IH by (intros i Hi; apply H; now right). reflexivity.
Qed.

Lemma Qsum_map_inject {A} (f : A -> Z) (l : list A) :
  (Qsum (map (fun i => inject_Z (f i)) l) == inject_Z (Zsum (map f l)))%Q.
Proof.
  induction l as [|a t IH]; simpl; [reflexivity|].
  rewrite IH, inject_Z_plus. reflexivity.
Qed.

Lemma binary_nth (x : list Z) (i : nat) :
  binary x -> nth i x 0 * nth i x 0 = nth i x 0.
Proof.
  intro H. revert i. induction H as [|xi t Hxi _ IH]; intros [|i]; simpl;
    try reflexivity; [|apply IH].
  destruct Hxi as [-> | ->]; reflexivity.
Qed.

(** The weighted sum of the variables is the sum of the numbers picked. *)
Lemma Zsum_picked_above (S x : list Z) :
  binary x -> List.length x = List.length S ->
  Zsum (map (fun i => nth i S 0 * nth i x 0) (seq 0 (List.length S)))
  = Zsum (picked above_half S x).
Proof.
  intro Hb. revert S. induction Hb as [|xi t Hxi _ IH]; intros S Hlen.
  - destruct S; [reflexivity | discriminate].
  - destruct S as [|s S']; [discriminate|]. simpl in Hlen.
    cbn [List.length seq map picked nth]. rewrite Zsum_cons.
    rewrite <- seq_shift, map_map. cbn [nth].
    rewrite (IH S') by lia.
    destruct Hxi as [-> | ->].
    + change (above_half 0) with false. cbv iota. lia.
    + change (above_half 1) with true. cbv iota. rewrite Zsum_cons. lia.
Qed.

(** The objective, row by row, in integers. *)
Lemma partition_row_sum (S x : list Z) (i : nat) :
  small_instance S -> binary x -> (i < List.length S)%nat ->
  let n := List.length S in
  let a := fun k => nth k S 0 * nth k x 0 in
  Zsum (map (fun j => nth i x 0 * partition_entry S i j * nth j x 0)
            (seq i (n - i)))
  = (a i * a i + Zsum (map (fun j => 2 * a i * a j) (range (i + 1) n)))
    + (- Zsum S) * a i.
Proof.
  intros Hsmall Hb Hi n a.
  replace (n - i)%nat with (Datatypes.S (n - (i + 1))) by (subst n; lia).
  cbn [seq map]. rewrite Zsum_cons.
  rewrite (partition_entry_exact S i i Hsmall Hi Hi), Nat.eqb_refl.
  replace (Datatypes.S i) with (i + 1)%nat by lia. fold (range (i + 1) n).
  rewrite (Zsum_map_ext_in _ (fun j => 2 * a i * a j)).
  - pose proof (binary_nth x i Hb) as Hx. subst a. cbv beta.
    set (xi := nth i x 0) in *. set (si := nth i S 0).
    replace (xi * (si * (si - Zsum S)) * xi)
      with (si * si * (xi * xi) - Zsum S * si * (xi * xi)) by ring.
    rewrite Hx.
    replace (si * xi * (si * xi)) with (si * si * (xi * xi)) by ring.
    rewrite Hx. ring.
  - intros j Hj. apply in_range in Hj.
    rewrite (partition_entry_exact S i j Hsmall Hi) by (subst n; lia).
    destruct (Nat.eqb_spec i j); [lia|].
    destruct (Nat.ltb_spec i j); [|lia]. subst a. cbv beta. ring.
Qed.

Lemma Zsum_picked_total (S x : list Z) :
  List.length x = List.length S ->
  Zsum (picked above_half S x) + Zsum (picked at_most_half S x) = Zsum S.
Proof.
  intro Hlen. pose proof (picked_split S x ltac:(lia)) as Hp.
  rewrite Hlen, firstn_all in Hp.
  rewrite <- Zsum_app. apply Zsum_Permutation. exact Hp.
Qed.

(** The objective on the matrix of the cell, in integers. *)
Lemma partition_objective_Z (S x : list Z) (l : list Z) :
  small_instance S -> binary x -> List.length x = List.length S ->
  (forall i j, (i < List.length S)%nat -> (j < List.length S)%nat ->
               nth (i * List.length S + j) l 0 = partition_entry S i j) ->
  (qubo_objective (int_matrix (List.length S) l) x
   == inject_Z (- (Zsum (picked above_half S x)
                   * Zsum (picked at_most_half S x))))%Q.
Proof.
  intros Hsmall Hb Hlen Hnth.
  set (n := List.length S) in *.
  set (a := fun k => nth k S 0 * nth k x 0).
  unfold qubo_objective. cbn [shape int_matrix hd].
  rewrite (Qsum_map_ext_in _
             (fun i => inject_Z
                ((a i * a i
                  + Zsum (map (fun j => 2 * a i * a j) (range (i + 1) n)))
                 + (- Zsum S) * a i))).
  - rewrite Qsum_map_inject.
    rewrite Zsum_map_add, Zsum_map_scale, square_of_sum.
    subst a. unfold n. rewrite (Zsum_picked_above S x Hb Hlen).
    rewrite <- (Zsum_picked_total S x Hlen).
    apply inject_Z_injective. ring.
  - intros i Hi. apply in_seq in Hi.
    rewrite (Qsum_map_ext_in _
               (fun j => inject_Z
                  (nth i x 0 * partition_entry S i j * nth j x 0))).
    + rewrite Qsum_map_inject.
      match goal with
      | |- (inject_Z ?L == inject_Z ?R)%Q =>
          assert (E : L = R)
            by exact (partition_row_sum S x i Hsmall Hb (proj2 Hi))
      end.
      rewrite E. reflexivity.
    + intros j Hj. apply in_seq in Hj.
      unfold x_at, entry, value. cbn [buf int_matrix].
      rewrite Hnth by lia.
      rewrite <- !inject_Z_mult. reflexivity.
Qed.

(** X17: on an instance of positive numbers without overflow and a 0/1
    sample with one variable per number, the sum
    [sum_{i<=j} x_i Q[i,j] x_j] over the matrix of the cell is minus the
    product of the sums of the two sides the display lines build: it is least
    where the two sides are closest. *)
Theorem partition_objective_is_product (S x : list Z) :
  small_instance S -> binary x -> List.length x = List.length S ->
  exists Qm,
    partition_matrix S = Returned Qm /\
    (qubo_objective Qm x
     == inject_Z (- (Zsum (picked above_half S x)
                     * Zsum (picked at_most_half S x))))%Q.
Proof.
  intros Hsmall Hb Hlen.
  destruct (partition_matrix_entries S) as (l & Hret & _ & Hnth).
  exists (int_matrix (List.length S) l). split; [exact Hret|].
  exact (partition_objective_Z S x l Hsmall Hb Hlen Hnth).
Qed.

Lemma partition_objective_is_product_witness :
  exists Qm,
    partition_matrix S_six = Returned Qm /\
    Qeq (qubo_objective Qm [1; 0; 0; 0; 1; 0])
        (inject_Z (- (Zsum (picked above_half S_six [1; 0; 0; 0; 1; 0])
                      * Zsum (picked at_most_half S_six
                                     [1; 0; 0; 0; 1; 0])))).
Proof.
  apply (partition_objective_is_product S_six [1; 0; 0; 0; 1; 0]).
  - exact small_instance_S_six.
  - unfold binary. repeat (apply Forall_cons; [lia|]). apply Forall_nil.
  - reflexivity.
Defined.

(** ** The solving cells, end to end *)

Lemma display_solution_picked (S : list Z) (solution : Sample) :
  (List.length (sample solution) <= List.length S)%nat ->
  display_solution S solution
  = (Returned tt,
     [Print "sum(S0) %8d"
            [PyInt (py_sum (picked above_half S (sample solution)))];
      Print "sum(S1) %8d"
            [PyInt (py_sum (picked at_most_half S (sample solution)))]]).
Proof.
  intro Hlen. unfold display_solution.
  rewrite !select_from_picked by exact Hlen. reflexivity.
Qed.

Lemma abs_le_of_square_le (a b : Z) : a * a <= b * b -> Z.abs a <= Z.abs b.
Proof.
  intro H. apply Z.square_le_simpl_nonneg; [apply Z.abs_nonneg|].
  rewrite !Z.abs_square. exact H.
Qed.

(** A smaller objective is a more even split. *)
Lemma imbalance_le_of_objective_le (S x y : list Z) :
  List.length x = List.length S -> List.length y = List.length S ->
  - (Zsum (picked above_half S x) * Zsum (picked at_most_half S x))
  <= - (Zsum (picked above_half S y) * Zsum (picked at_most_half S y)) ->
  imbalance S x <= imbalance S y.
Proof.
  intros Hx Hy H. unfold imbalance.
  pose proof (Zsum_picked_total S x Hx) as Tx.
  pose proof (Zsum_picked_total S y Hy) as Ty.
  apply abs_le_of_square_le. nia.
Qed.

(** X18: the cell "Solve on the CPU", on the matrix of an instance of
    positive numbers without overflow: when the sampler answers an ensemble
    of 0/1 samples with one variable per number whose entries have the
    objective at their sample as energy, the cell prints the two sums of the
    split of one entry of the ensemble, and no entry of the ensemble gives a
    more even split. *)
Theorem solve_on_cpu_most_even
    (w : world) (S : list Z) (Qm : ndarray) (r : SampleSet) :
  small_instance S ->
  partition_matrix S = Returned Qm ->
  sa_sample_qubo w Qm (PyInt 10) = Returned r ->
  data r <> [] ->
  energies_are_objective Qm r ->
  (forall e, In e (data r) ->
             binary (sample e) /\ List.length (sample e) = List.length S) ->
  exists sol,
    In sol (data r) /\
    solve_on_cpu w S Qm
    = (Returned tt,
       [print_solving Qm (Z.of_nat (List.length S)) (PyStr "CPU");
        New_SimulatedAnnealingSampler;
        Call_sample_qubo Qm (PyInt 10);
        print_solved w;
        Print "sum(S0) %8d"
              [PyInt (py_sum (picked above_half S (sample sol)))];
        Print "sum(S1) %8d"
              [PyInt (py_sum (picked at_most_half S (sample sol)))]]) /\
    forall e, In e (data r) ->
              imbalance S (sample sol) <= imbalance S (sample e).
Proof.
  intros Hsmall Hret Hcall Hdata Hobj Hsamples.
  destruct (partition_matrix_entries S) as (l & Hret' & _ & Hnth).
  rewrite Hret in Hret'. injection Hret' as ->.
  set (n := List.length S) in *.
  unfold energies_are_objective in Hobj. rewrite Forall_forall in Hobj.
  destruct (py_min_returns energy (data r) Hdata) as (sol & Hmin & Hfirst).
  pose proof (first_minimum_In energy sol (data r) Hfirst) as Hsol.
  exists sol. split; [exact Hsol|]. split.
  - unfold solve_on_cpu, solve_qubo_defaults.
    rewrite (solve_qubo_cpu_run w (int_matrix n l) (PyInt 10) PyNone n [n]
               eq_refl).
    rewrite Hcall, Hmin, bind_Returned. cbn [fst].
    rewrite (display_solution_picked S sol)
      by (destruct (Hsamples sol Hsol) as [_ ->]; apply Nat.le_refl).
    reflexivity.
  - intros e He.
    destruct (Hsamples sol Hsol) as [Bs Ls].
    destruct (Hsamples e He) as [Be Le].
    apply imbalance_le_of_objective_le; trivial.
    rewrite Zle_Qle.
    rewrite <- (partition_objective_Z S (sample sol) l Hsmall Bs Ls Hnth).
    rewrite <- (partition_objective_Z S (sample e) l Hsmall Be Le Hnth).
    fold n. rewrite <- (Hobj sol Hsol), <- (Hobj e He).
    exact (first_minimum_le energy sol (data r) Hfirst e He).
Qed.

Lemma binary_digits (N j : nat) : binary (digits N j).
Proof.
  unfold binary, digits. apply Forall_forall. intros z Hz.
  apply in_map_iff in Hz. destruct Hz as (i & <- & _).
  destruct (Nat.testbit j i); auto.
Qed.

Lemma stub_rows_samples (Qm : ndarray) (k : nat) (e : Sample) :
  In e (stub_rows Qm k) ->
  binary (sample e) /\ List.length (sample e) = hd 0%nat (shape Qm).
Proof.
  unfold stub_rows. intro He. apply in_map_iff in He.
  destruct He as (j & <- & _). cbn [sample]. split.
  - apply binary_digits.
  - unfold digits. rewrite length_map, length_seq. reflexivity.
Qed.

Lemma solve_on_cpu_most_even_witness :
  exists sol,
    In sol (data {| data := stub_rows Q_six 10 |}) /\
    solve_on_cpu stub_world S_six Q_six
    = (Returned tt,
       [print_solving Q_six (Z.of_nat (List.length S_six)) (PyStr "CPU");
        New_SimulatedAnnealingSampler;
        Call_sample_qubo Q_six (PyInt 10);
        print_solved stub_world;
        Print "sum(S0) %8d"
              [PyInt (py_sum (picked above_half S_six (sample sol)))];
        Print "sum(S1) %8d"
              [PyInt (py_sum (picked at_most_half S_six (sample sol)))]]) /\
    forall e, In e (data {| data := stub_rows Q_six 10 |}) ->
              imbalance S_six (sample sol) <= imbalance S_six (sample e).
Proof.
  apply (solve_on_cpu_most_even
           stub_world S_six Q_six {| data := stub_rows Q_six 10 |}).
  - exact small_instance_S_six.
  - vm_compute. reflexivity.
  - reflexivity.
  - vm_compute. discriminate.
  - exact (stub_energies Q_six 10).
  - intros e He. exact (stub_rows_samples Q_six 10 e He).
Defined.

(** On the six numbers, ten reads of the stand-in reach an even split, 5
    and 5. *)
Example solve_on_cpu_S_six :
  trace (solve_on_cpu stub_world S_six Q_six)
  = [print_solving Q_six 6 (PyStr "CPU");
     New_SimulatedAnnealingSampler;
     Call_sample_qubo Q_six (PyInt 10);
     print_solved stub_world;
     Print "sum(S0) %8d" [PyInt 5];
     Print "sum(S1) %8d" [PyInt 5]].
Proof. vm_compute. reflexivity. Qed.

(** * Energies and the entries below the diagonal *)

Lemma Qsum_app (l l' : list Q) : (Qsum (l ++ l') == Qsum l + Qsum l')%Q.
Proof.
  induction l as [|a t IH]; simpl.
  - symmetry. apply Qplus_0_l.
  - rewrite IH. apply Qplus_assoc.
Qed.

Lemma Qsum_map_zero {A} (f : A -> Q) (l : list A) :
  (forall i, In i l -> (f i == 0)%Q) -> (Qsum (map f l) == 0)%Q.
Proof.
  induction l as [|a t IH]; intro H; simpl; [reflexivity|].
  rewrite (H a) by now left.
  rewrite IH by (intros i Hi; apply H; now right). reflexivity.
Qed.

Lemma value_zero_scalar (s : scalar) :
  zero_scalar s = true -> (value s == 0)%Q.
Proof.
  destruct s as [z | f]; cbn [zero_scalar value]; intro H.
  - apply Z.eqb_eq in H. subst. reflexivity.
  - rewrite FloatAxioms.eqb_spec in H.
    destruct (Prim2SF f) as [sg | sg | | sg m e]; try reflexivity.
    destruct sg; discriminate H.
Qed.

Lemma upper_triangular_zero_below (a : ndarray) :
  upper_triangular a -> zero_below_diagonal a.
Proof.
  intros (n & Hs & Hz). exists n. split; [exact Hs|].
  intros i j Hij. destruct (Hz i j Hij) as [-> | ->]; reflexivity.
Qed.

(** On a matrix that is zero below the diagonal the entries there add
    nothing: the sum over every entry is the objective. *)
Lemma whole_matrix_sum_zero_below (Qm : ndarray) (x : list Z) :
  zero_below_diagonal Qm ->
  (whole_matrix_sum Qm x == qubo_objective Qm x)%Q.
Proof.
  intros (n & Hs & Hz). unfold whole_matrix_sum, qubo_objective.
  rewrite Hs. cbn [hd].
  apply Qsum_map_ext_in. intros i Hi. apply in_seq in Hi.
  assert (E : seq 0 n = seq 0 i ++ seq i (n - i))
    by (rewrite <- seq_app; f_equal; lia).
  rewrite E at 1. rewrite map_app, Qsum_app, Qsum_map_zero.
  - apply Qplus_0_l.
  - intros j Hj. apply in_seq in Hj.
    rewrite (value_zero_scalar (entry Qm n i j)) by (apply Hz; lia).
    rewrite Qmult_0_r. apply Qmult_0_l.
Qed.

Lemma dense_energies (Qm : ndarray) (k : nat) :
  energies_are_whole_matrix_sum Qm {| data := dense_rows Qm k |}.
Proof.
  unfold energies_are_whole_matrix_sum, dense_rows. cbn [data].
  apply Forall_forall. intros e He. apply in_map_iff in He.
  destruct He as (j & <- & _). cbn [energy sample]. apply Qeq_refl.
Qed.

(** C2, as the code has it: [solve_qubo] computes no energy; the energies
    are the sampler's, taken from the whole matrix it is handed.  For a
    square matrix that is zero below the diagonal (upper triangular, what
    the docstring takes [Q] to be), when the energies of the answered ensemble are the sum of
    [x_i Q[i,j] x_j] over every entry, every entry of the ensemble
    [solve_qubo] returns has the objective [sum_{i<=j} x_i Q[i,j] x_j] at its
    sample as its energy, and the returned sample is least for that
    objective among the samples of the ensemble. *)
Theorem solution_minimizes_objective
    (w : world) (Qm : ndarray) (sampler k cs : pyval) (r : SampleSet) :
  zero_below_diagonal Qm ->
  py_in sampler ["CPU"; "QPU"] = true ->
  result (sampler_call w Qm sampler k cs) = Returned r ->
  data r <> [] ->
  energies_are_whole_matrix_sum Qm r ->
  exists sol,
    result (solve_qubo w (Ndarray Qm) sampler k cs) = Returned (sol, r) /\
    energies_are_objective Qm r /\
    In sol (data r) /\
    (forall e, In e (data r) ->
               (qubo_objective Qm (sample sol)
                <= qubo_objective Qm (sample e))%Q).
Proof.
  intros Hup Hin Hcall Hdata Hwhole.
  assert (Hne : shape Qm <> [])
    by (destruct Hup as (n & Hs & _); congruence).
  assert (Hobj : energies_are_objective Qm r).
  { unfold energies_are_objective, energies_are_whole_matrix_sum in *.
    apply (Forall_impl _ (P := fun e =>
              (energy e == whole_matrix_sum Qm (sample e))%Q));
      [|exact Hwhole].
    intros e He. rewrite He.
    apply whole_matrix_sum_zero_below. exact Hup. }
  destruct (solve_qubo_returns w Qm sampler k cs r Hin Hne Hcall Hdata)
    as (sol & Hres & _ & Hfirst).
  pose proof (first_minimum_In energy _ _ Hfirst) as Hsol.
  exists sol. repeat split; trivial.
  intros e He. unfold energies_are_objective in Hobj.
  rewrite Forall_forall in Hobj.
  rewrite <- (Hobj sol Hsol), <- (Hobj e He).
  exact (first_minimum_le energy _ _ Hfirst e He).
Qed.

Lemma solution_minimizes_objective_witness :
  exists sol,
    result (solve_qubo dense_world (Ndarray Q_small) (PyStr "CPU") (PyInt 4)
                       PyNone)
    = Returned (sol, {| data := dense_rows Q_small 4 |}) /\
    energies_are_objective Q_small {| data := dense_rows Q_small 4 |} /\
    In sol (data {| data := dense_rows Q_small 4 |}) /\
    (forall e, In e (data {| data := dense_rows Q_small 4 |}) ->
               (qubo_objective Q_small (sample sol)
                <= qubo_objective Q_small (sample e))%Q).
Proof.
  apply (solution_minimizes_objective
           dense_world Q_small (PyStr "CPU") (PyInt 4) PyNone
           {| data := dense_rows Q_small 4 |}).
  - exact (upper_triangular_zero_below Q_small upper_triangular_Q_small).
  - reflexivity.
  - reflexivity.
  - vm_compute. discriminate.
  - exact (dense_energies Q_small 4).
Defined.

(** C2, as stated, fails on the square matrix [[1, -4], [-7, 1]], with a
    sampler that reads the whole matrix: the entry of the ensemble at
    [x = (1, 1)], which is the solution returned, has energy
    [1 - 4 - 7 + 1 = -9], and the objective there is [1 - 4 + 1 = -2]. *)
Lemma energy_counts_lower_triangle :
  squareb Q_lower = true /\
  result (solve_qubo dense_world (Ndarray Q_lower) (PyStr "CPU") (PyInt 4)
                     PyNone)
  = Returned ({| sample := [1; 1]; energy := -9 |},
              {| data := [ {| sample := [0; 0]; energy := 0 |};
                           {| sample := [1; 0]; energy := 1 |};
                           {| sample := [0; 1]; energy := 1 |};
                           {| sample := [1; 1]; energy := -9 |} ] |}) /\
  qubo_objective Q_lower [1; 1] = (-2)%Q /\
  Qeq_bool (-9) (qubo_objective Q_lower [1; 1]) = false.
Proof. repeat split; vm_compute; reflexivity. Qed.

(** Nor need the solution be least for the objective then: on
    [[1, -4], [7, 1]] the solution returned is [x = (0, 0)], of objective 0,
    although [x = (1, 1)], of objective -2 and energy 5, is in the
    ensemble. *)
Example least_energy_not_least_objective :
  result (solve_qubo dense_world (Ndarray Q_below) (PyStr "CPU") (PyInt 4)
                     PyNone)
  = Returned ({| sample := [0; 0]; energy := 0 |},
              {| data := [ {| sample := [0; 0]; energy := 0 |};
                           {| sample := [1; 0]; energy := 1 |};
                           {| sample := [0; 1]; energy := 1 |};
                           {| sample := [1; 1]; energy := 5 |} ] |}) /\
  Qle_bool (qubo_objective Q_below [0; 0]) (qubo_objective Q_below [1; 1])
  = false.
Proof. split; vm_compute; reflexivity. Qed.

(** The objective itself does not see the entry below the diagonal: it is
    -2 at [x = (1, 1)] on both matrices, as on [Q_small]. *)
Example objective_ignores_lower_triangle :
  qubo_objective Q_small [1; 1] = qubo_objective Q_lower [1; 1] /\
  qubo_objective Q_small [1; 1] = qubo_objective Q_below [1; 1].
Proof. split; vm_compute; reflexivity. Qed.



